(** * Dino Fighter G1: the economic core of [src/App.js]

    A shallow embedding of the handlers of [App.js] that carry the
    economic rules (slot pricing, multiplier, raffle, token sale, burn
    ledgers), followed by the properties the specification states about
    them.

    Conventions of the embedding.
    - A JavaScript number that holds an amount (a balance, a cost, a
      price) is an exact rational [Q]; counts, identifiers, epochs and
      millisecond clocks are integers [Z].  Where the rounding of the
      doubles decides what a handler does (the caps and the price of the
      sale) the component is embedded over binary64 numbers, in
      [SaleDouble]; [Sale] is the same component in exact arithmetic.
    - A Firestore document is a record whose fields are [option]s (a field
      may be absent), and a document reference holds [option] of it (the
      document may not exist).  [data.f || 0] is [orZero (f data)].
    - A React component keeps a copy of its document in local state, which
      its [onSnapshot] listener refreshes after every write.  The model
      keeps one copy of each such value.
    - A handler reports through [setModalMessage] (or [alert]); the model
      returns the [Notice] it raised together with the next state.
    - The prop [userId] is [None] when it is falsy (no wallet connected),
      in which case the component has no document reference. *)

From Stdlib Require Import ZArith QArith Qround Qpower Qabs Floats Lia.
From stdpp Require Import base gmap strings list.

Open Scope Z_scope.
Open Scope Q_scope.

Set Warnings "-inexact-float".

(** ** JavaScript values *)

Module Js.

(** [x > y], [x >= y] on numbers. *)
Definition gtb (x y : Q) : bool := negb (Qle_bool x y).
Definition geb (x y : Q) : bool := Qle_bool y x.

(** [x || 0] where [x] may be [undefined]. *)
Definition orZero (x : option Q) : Q := default 0 x.

(** [Math.pow(b, e)] at an integer exponent. *)
Definition pow (b : Q) (e : Z) : Q := Qpower b e.

(** [Math.floor(a / b)] on integers, [b > 0]. *)
Definition floorDiv (a b : Z) : Z := (a / b)%Z.

(** [Math.max(...xs)] on a non-empty argument list [x, ...xs]. *)
Definition max (x : Z) (xs : list Z) : Z := fold_left Z.max xs x.

End Js.

(** ** What a handler shows to the user

    One constructor per message of the source; the names follow the error
    kinds of the specification where one exists. *)

Inductive Outcome := Jackpot | PartialMatch | NoWin.

Inductive Notice :=
| NotAuthenticated              (* "Please connect your wallet ..." *)
| InsufficientBalance           (* "Insufficient $eDINOSUR. You need ..." *)
| SlotBought (cost burn dao : Q)  (* "You are about to buy a slot for ..." *)
| TicketsBought (quantity : Z) (cost burn : Q)
                                (* "You are about to buy ... tickets" *)
| NothingToBurn                 (* "No $eDINOSUR ready to burn!" *)
| Burnt (amount total : Q)      (* "Successfully burnt ..." *)
| SaleNotLive                   (* "The $eDINOSUR sale has not started yet!" *)
| InvalidAmount                 (* "Please enter a valid amount to buy." *)
| WalletCapExceeded             (* "... maximum of $1000 ... per wallet" *)
| EpochCapExceeded              (* "... maximum of $250 ... per epoch" *)
| Purchased (tokens total inEpoch : Q)  (* "Successfully purchased ..." *)
| AlreadySpinning               (* "Reels are already spinning!" *)
| NoTicketsAvailable            (* "You need to buy tickets first!" *)
| SpinStarted                   (* "Spinning the slot machine!" *)
| PersistenceFailure            (* "Failed to ...: <error>" *)
| SpinResult (o : Outcome).     (* the three result messages *)

(** ** NFTStakingSection *)

Module Staking.

Record NFT := {
  id : Z;
  type : string;
  earning : Q;
  staked : bool;
  lastStakedTime : Z
}.

(** The document [users/<uid>/data/staking]. *)
Record Doc := {
  nfts : option (list NFT);
  earned : option Q;
  readyToBurnEDinosur : option Q;
  totalBurntEDinosur : option Q
}.

Definition BASE_ADD_SLOT_EDINOSUR_COST : Q := 200000.
Definition ADD_SLOT_BURN_AMOUNT_PERCENTAGE : Q := 0.5.

(** [new Set(nfts.filter(nft => nft.staked).map(nft => nft.type))] *)
Definition stakedTypes (nfts : list NFT) : gset string :=
  list_to_set (type <$> filter (λ nft, staked nft = true) nfts).

(** The [if]/[else if] chain of [calculateMultiplier]. *)
Definition multiplierOf (stakedTypes : gset string) : Q :=
  if bool_decide ("Legend" ∈ stakedTypes) then 1.5
  else if bool_decide ("King" ∈ stakedTypes) then 1.3
  else if bool_decide ("Unique" ∈ stakedTypes) then 1.15
  else if bool_decide ("Common" ∈ stakedTypes)
          || bool_decide ("Rare" ∈ stakedTypes) then 1.05
  else 1.0.

Definition calculateMultiplier (nfts : list NFT) : Q :=
  multiplierOf (stakedTypes nfts).

Definition calculateAddSlotCost (currentSlotCount : Z) : Q :=
  let baseCost := BASE_ADD_SLOT_EDINOSUR_COST in
  if (4 <=? currentSlotCount)%Z then
    let multiplier := Js.pow 1.5 (currentSlotCount - 3) in
    baseCost * multiplier
  else baseCost.

(** [updateFirestoreStaking]: [setDoc(ref, {nfts, earned,
    readyToBurnEDinosur}, {merge: true})]; other fields are kept. *)
Definition updateFirestoreStaking
    (updatedNFTs : list NFT) (updatedEarned updatedReadyToBurn : Q)
    (doc : option Doc) : option Doc :=
  Some {| nfts := Some updatedNFTs;
          earned := Some updatedEarned;
          readyToBurnEDinosur := Some updatedReadyToBurn;
          totalBurntEDinosur := doc ≫= totalBurntEDinosur |}.

(** [currentNFTs.length > 0 ? Math.max(...ids) + 1 : 1] *)
Definition newId (currentNFTs : list NFT) : Z :=
  match id <$> currentNFTs with
  | [] => 1
  | i :: ids => Js.max i ids + 1
  end.

Definition newSlot (currentNFTs : list NFT) : NFT :=
  {| id := newId currentNFTs; type := "New Slot"; earning := 0;
     staked := false; lastStakedTime := 0 |}.

(** The purchase branch of [handleAddSlot], from the line that compares
    the balance with [calculatedCost]. *)
Definition purchaseSlot (calculatedCost : Q) (doc : option Doc)
  : Notice * option Doc :=
  let currentEDinosurBalance := Js.orZero (doc ≫= earned) in
  let currentReadyToBurnEDinosur := Js.orZero (doc ≫= readyToBurnEDinosur) in
  let currentNFTs := default [] (doc ≫= nfts) in
  if Js.geb currentEDinosurBalance calculatedCost then
    let remainingEDinosur := currentEDinosurBalance - calculatedCost in
    let burnAmount := calculatedCost * ADD_SLOT_BURN_AMOUNT_PERCENTAGE in
    let daoAmount := calculatedCost - burnAmount in
    let newReadyToBurnEDinosur := currentReadyToBurnEDinosur + burnAmount in
    let updatedNFTs := currentNFTs ++ [newSlot currentNFTs] in
    (SlotBought calculatedCost burnAmount daoAmount,
     updateFirestoreStaking updatedNFTs remainingEDinosur
       newReadyToBurnEDinosur doc)
  else (InsufficientBalance, doc).

Definition handleAddSlot (userId : option string) (doc : option Doc)
  : Notice * option Doc :=
  match userId with
  | None => (NotAuthenticated, doc)
  | Some _ =>
      let currentNFTs := default [] (doc ≫= nfts) in
      let calculatedCost :=
        calculateAddSlotCost (Z.of_nat (length currentNFTs)) in
      purchaseSlot calculatedCost doc
  end.

End Staking.

(** ** EDinosurSection and DinosurCoinSection: the two burn ledgers *)

Module Burn.

(** The document [public/data/dinosur_burn_stats/global_stats]. *)
Record StatsDoc := {
  readyToBurnDinosur : option Q;
  totalBurntDinosur : option Q
}.

(** The two documents a burn can touch: the holder's staking document
    and the global statistics document. *)
Record Store := {
  staking : option Staking.Doc;
  globalStats : option StatsDoc
}.

(** [handleBurnEDinosur]; [readyToBurnEDinosur] and [totalBurntEDinosur]
    are the listener's copies [data.f || 0] of the staking document.
    [updateDoc] rejects when the document does not exist. *)
Definition handleBurnEDinosur (s : Store) : Notice * Store :=
  let readyToBurnEDinosur :=
    Js.orZero (staking s ≫= Staking.readyToBurnEDinosur) in
  let totalBurntEDinosur :=
    Js.orZero (staking s ≫= Staking.totalBurntEDinosur) in
  if Js.gtb readyToBurnEDinosur 0 then
    let newTotalBurnt := totalBurntEDinosur + readyToBurnEDinosur in
    match staking s with
    | Some d =>
        (Burnt readyToBurnEDinosur newTotalBurnt,
         {| staking :=
              Some {| Staking.nfts := Staking.nfts d;
                      Staking.earned := Staking.earned d;
                      Staking.readyToBurnEDinosur := Some 0;
                      Staking.totalBurntEDinosur := Some newTotalBurnt |};
            globalStats := globalStats s |})
    | None => (PersistenceFailure, s)
    end
  else (NothingToBurn, s).

(** [handleBurnDinosur], on the global document. *)
Definition handleBurnDinosur (s : Store) : Notice * Store :=
  let readyToBurnDinosur' :=
    Js.orZero (globalStats s ≫= readyToBurnDinosur) in
  let totalBurntDinosur' :=
    Js.orZero (globalStats s ≫= totalBurntDinosur) in
  if Js.gtb readyToBurnDinosur' 0 then
    let newTotalBurnt := totalBurntDinosur' + readyToBurnDinosur' in
    match globalStats s with
    | Some _ =>
        (Burnt readyToBurnDinosur' newTotalBurnt,
         {| staking := staking s;
            globalStats :=
              Some {| readyToBurnDinosur := Some 0;
                      totalBurntDinosur := Some newTotalBurnt |} |})
    | None => (PersistenceFailure, s)
    end
  else (NothingToBurn, s).

(** The ledger a section displays: [(readyToBurn, totalBurnt)]. *)
Definition userLedger (s : Store) : Q * Q :=
  (Js.orZero (staking s ≫= Staking.readyToBurnEDinosur),
   Js.orZero (staking s ≫= Staking.totalBurntEDinosur)).

Definition globalLedger (s : Store) : Q * Q :=
  (Js.orZero (globalStats s ≫= readyToBurnDinosur),
   Js.orZero (globalStats s ≫= totalBurntDinosur)).

End Burn.

(** ** EDinosurSaleSection in exact arithmetic

    The sale component with its amounts read as exact rationals: its
    clock, its epochs and the bounds its counters keep.  Which branch a
    cap test takes on the doubles, and which price is held, is the matter
    of [SaleDouble] below. *)

Module Sale.

Definition epochDurationDays : Z := 7.
Definition initialPrice : Q := 0.00005.
Definition priceIncreaseFactor : Q := 1.10.
Definition MAX_EPOCH_PURCHASE_USD : Q := 250.

(** [epochDurationDays * 24 * 60 * 60 * 1000] *)
Definition epochMs : Z := epochDurationDays * 24 * 60 * 60 * 1000.

(** The state of the component.  [saleStartTime] is
    [saleStartTimeRef.current.getTime()]; [buyAmount] is
    [parseFloat(buyAmount)], [None] when that is [NaN]; the three
    purchase counters are the component's copies of the document
    [users/<uid>/data/eDinoSalePurchases]. *)
Record State := {
  userId : option string;
  saleStartTime : Z;
  saleStarted : bool;
  currentEpoch : Z;
  currentPrice : Q;
  buyAmount : option Q;
  userPurchasedUSD : Q;
  userPurchasedUSDInCurrentEpoch : Q;
  lastPurchaseEpoch : Z
}.

(** [getSaleStartDate] at the first run of the countdown effect, and the
    [useState] defaults. *)
Definition init (userId : option string) (now : Z) : State :=
  {| userId := userId;
     saleStartTime := now + 45 * 24 * 60 * 60 * 1000;
     saleStarted := false;
     currentEpoch := 0;
     currentPrice := initialPrice;
     buyAmount := None;
     userPurchasedUSD := 0;
     userPurchasedUSDInCurrentEpoch := 0;
     lastPurchaseEpoch := -1 |}.

Definition setBuyAmount (a : option Q) (st : State) : State :=
  {| userId := userId st; saleStartTime := saleStartTime st;
     saleStarted := saleStarted st; currentEpoch := currentEpoch st;
     currentPrice := currentPrice st; buyAmount := a;
     userPurchasedUSD := userPurchasedUSD st;
     userPurchasedUSDInCurrentEpoch := userPurchasedUSDInCurrentEpoch st;
     lastPurchaseEpoch := lastPurchaseEpoch st |}.

(** [Math.floor(elapsedMs / epochMs)] with [elapsedMs = now - saleStartTime] *)
Definition epochIndex (saleStartTime now : Z) : Z :=
  let elapsedMs := (now - saleStartTime)%Z in
  Js.floorDiv elapsedMs epochMs.

(** [initialPrice * Math.pow(priceIncreaseFactor, currentEpochNum)] *)
Definition price (currentEpochNum : Z) : Q :=
  initialPrice * Js.pow priceIncreaseFactor currentEpochNum.

(** One run of the [setInterval] callback of the countdown effect at
    clock [now].  On an epoch change it zeroes the epoch counter and,
    when there is a document, writes [lastPurchaseEpoch], which the
    listener copies back into the state. *)
Definition tick (now : Z) (st : State) : State :=
  let distance := (saleStartTime st - now)%Z in
  if (distance <? 0)%Z then
    let currentEpochNum := epochIndex (saleStartTime st) now in
    let changed := negb (currentEpochNum =? lastPurchaseEpoch st)%Z in
    {| userId := userId st; saleStartTime := saleStartTime st;
       saleStarted := true;
       currentEpoch := currentEpochNum;
       currentPrice := price currentEpochNum;
       buyAmount := buyAmount st;
       userPurchasedUSD := userPurchasedUSD st;
       userPurchasedUSDInCurrentEpoch :=
         if changed then 0 else userPurchasedUSDInCurrentEpoch st;
       lastPurchaseEpoch :=
         if changed && bool_decide (is_Some (userId st))
         then currentEpochNum else lastPurchaseEpoch st |}
  else
    {| userId := userId st; saleStartTime := saleStartTime st;
       saleStarted := false;
       currentEpoch := currentEpoch st; currentPrice := currentPrice st;
       buyAmount := buyAmount st;
       userPurchasedUSD := userPurchasedUSD st;
       userPurchasedUSDInCurrentEpoch := userPurchasedUSDInCurrentEpoch st;
       lastPurchaseEpoch := lastPurchaseEpoch st |}.

Definition handleBuy (st : State) : Notice * State :=
  match userId st with
  | None => (NotAuthenticated, st)
  | Some _ =>
    if negb (saleStarted st) then (SaleNotLive, st) else
    match buyAmount st with
    | None => (InvalidAmount, st)
    | Some amountToBuy =>
      if Qle_bool amountToBuy 0 then (InvalidAmount, st) else
      let costUSD := amountToBuy * currentPrice st in
      if Js.gtb (userPurchasedUSD st + costUSD) 1000 then
        (WalletCapExceeded, st)
      else if Js.gtb (userPurchasedUSDInCurrentEpoch st + costUSD)
                MAX_EPOCH_PURCHASE_USD then
        (EpochCapExceeded, st)
      else
        let newTotalPurchasedUSD := userPurchasedUSD st + costUSD in
        let newPurchasedUSDInCurrentEpoch :=
          userPurchasedUSDInCurrentEpoch st + costUSD in
        (Purchased amountToBuy newTotalPurchasedUSD
           newPurchasedUSDInCurrentEpoch,
         {| userId := userId st; saleStartTime := saleStartTime st;
            saleStarted := saleStarted st;
            currentEpoch := currentEpoch st;
            currentPrice := currentPrice st;
            buyAmount := None;
            userPurchasedUSD := newTotalPurchasedUSD;
            userPurchasedUSDInCurrentEpoch := newPurchasedUSDInCurrentEpoch;
            lastPurchaseEpoch := currentEpoch st |})
    end
  end.

(** What can happen to the mounted component: the interval fires at
    clock [now], the user edits the amount, the user presses Buy. *)
Inductive Event :=
| Tick (now : Z)
| Input (amount : option Q)
| Buy.

Definition step (st : State) (e : Event) : State :=
  match e with
  | Tick now => tick now st
  | Input amount => setBuyAmount amount st
  | Buy => snd (handleBuy st)
  end.

Definition run (es : list Event) (st : State) : State :=
  fold_left step es st.

(** The clock of the last [Tick] of [es], [t] when there is none. *)
Definition lastTime (t : Z) (es : list Event) : Z :=
  fold_left (λ t e, match e with Tick now => now | _ => t end) es t.

(** The clock never runs backwards: from [t] on, the [Tick]s of [es]
    carry non-decreasing times. *)
Fixpoint monotoneFrom (t : Z) (es : list Event) : bool :=
  match es with
  | [] => true
  | Tick now :: es' => (t <=? now)%Z && monotoneFrom now es'
  | _ :: es' => monotoneFrom t es'
  end.

(** The displayed price is the price of the displayed epoch, in every
    state the component can reach. *)
Definition priceInv (st : State) : Prop :=
  currentPrice st = price (currentEpoch st).

(** The epoch the component shows after its last tick at clock [t]:
    epoch 0 until the start instant [T0] has passed, the index of [t]
    after it. *)
Definition epochInv (T0 t : Z) (st : State) : Prop :=
  saleStartTime st = T0 ∧
  currentEpoch st = if (t <=? T0)%Z then 0%Z else epochIndex T0 t.

End Sale.

(** ** JavaScript numbers as IEEE 754 doubles

    The sale compares sums of amounts with its two caps and holds a price
    that is a product with [Math.pow]: there the rounding of the doubles
    decides which branch is taken, so the sale is embedded a second time
    over binary64 numbers ([float]), operation by operation. *)

Module Double.

(** [x > y], [x <= y], [isNaN(x)] *)
Definition gt (x y : float) : bool := (y <? x)%float.
Definition le (x y : float) : bool := (x <=? y)%float.
Definition isNaN (x : float) : bool := is_nan x.

(** The exact value of a double, [None] for [NaN] and the infinities. *)
Definition toQ (x : float) : option Q :=
  match Prim2SF x with
  | S754_zero _ => Some 0
  | S754_finite s m e =>
      Some (inject_Z (if s then Z.neg m else Z.pos m) * Qpower 2 e)
  | _ => None
  end.


(** The distance of a finite double from [q], [None] for [NaN] and the
    infinities. *)
Definition distance (x : float) (q : Q) : option Q :=
  (λ v, Qabs (v - q)) <$> toQ x.

End Double.

(** ** EDinosurSaleSection over doubles *)

Module SaleDouble.

Inductive Notice :=
| NotAuthenticated              (* "Please connect your wallet to buy ..." *)
| SaleNotLive                   (* "The $eDINOSUR sale has not started yet!" *)
| InvalidAmount                 (* "Please enter a valid amount to buy." *)
| WalletCapExceeded             (* "... maximum of $1000 ... per wallet" *)
| EpochCapExceeded              (* "... maximum of $250 ... per epoch" *)
| Purchased (tokens total inEpoch : float).
                                (* "Successfully purchased ..." *)

Definition initialPrice : float := 0.00005.
Definition priceIncreaseFactor : float := 1.10.
Definition MAX_EPOCH_PURCHASE_USD : float := 250.

(** The state of the component.  [buyAmount] is [parseFloat(buyAmount)],
    [NaN] when the text holds no number; the three purchase counters are
    the component's copies of the document
    [users/<uid>/data/eDinoSalePurchases]. *)
Record State := {
  userId : option string;
  saleStartTime : Z;
  saleStarted : bool;
  currentEpoch : Z;
  currentPrice : float;
  buyAmount : float;
  userPurchasedUSD : float;
  userPurchasedUSDInCurrentEpoch : float;
  lastPurchaseEpoch : Z
}.

(** [getSaleStartDate] at the first run of the countdown effect, and the
    [useState] defaults ([parseFloat('')] is [NaN]). *)
Definition init (userId : option string) (now : Z) : State :=
  {| userId := userId;
     saleStartTime := now + 45 * 24 * 60 * 60 * 1000;
     saleStarted := false;
     currentEpoch := 0;
     currentPrice := initialPrice;
     buyAmount := nan;
     userPurchasedUSD := 0;
     userPurchasedUSDInCurrentEpoch := 0;
     lastPurchaseEpoch := -1 |}.

Definition setBuyAmount (a : float) (st : State) : State :=
  {| userId := userId st; saleStartTime := saleStartTime st;
     saleStarted := saleStarted st; currentEpoch := currentEpoch st;
     currentPrice := currentPrice st; buyAmount := a;
     userPurchasedUSD := userPurchasedUSD st;
     userPurchasedUSDInCurrentEpoch := userPurchasedUSDInCurrentEpoch st;
     lastPurchaseEpoch := lastPurchaseEpoch st |}.

(** [handleBuy].  The cost and the two sums are the rounded results of
    the double operations; the caps are tested on those. *)
Definition handleBuy (st : State) : Notice * State :=
  match userId st with
  | None => (NotAuthenticated, st)
  | Some _ =>
    if negb (saleStarted st) then (SaleNotLive, st) else
    let amountToBuy := buyAmount st in
    if Double.isNaN amountToBuy || Double.le amountToBuy 0
    then (InvalidAmount, st) else
    let costUSD := (amountToBuy * currentPrice st)%float in
    if Double.gt (userPurchasedUSD st + costUSD)%float 1000 then
      (WalletCapExceeded, st)
    else if Double.gt (userPurchasedUSDInCurrentEpoch st + costUSD)%float
              MAX_EPOCH_PURCHASE_USD then
      (EpochCapExceeded, st)
    else
      let newTotalPurchasedUSD := (userPurchasedUSD st + costUSD)%float in
      let newPurchasedUSDInCurrentEpoch :=
        (userPurchasedUSDInCurrentEpoch st + costUSD)%float in
      (Purchased amountToBuy newTotalPurchasedUSD
         newPurchasedUSDInCurrentEpoch,
       {| userId := userId st; saleStartTime := saleStartTime st;
          saleStarted := saleStarted st;
          currentEpoch := currentEpoch st;
          currentPrice := currentPrice st;
          buyAmount := nan;
          userPurchasedUSD := newTotalPurchasedUSD;
          userPurchasedUSDInCurrentEpoch := newPurchasedUSDInCurrentEpoch;
          lastPurchaseEpoch := currentEpoch st |})
  end.

(** What can happen to the mounted component: the interval fires at
    clock [now], the user edits the amount, the user presses Buy. *)
Inductive Event :=
| Tick (now : Z)
| Input (amount : float)
| Buy.

(** The clock of the last [Tick] of [es], [t] when there is none. *)
Definition lastTime (t : Z) (es : list Event) : Z :=
  fold_left (λ t e, match e with Tick now => now | _ => t end) es t.

(** The clock never runs backwards: from [t] on, the [Tick]s of [es]
    carry non-decreasing times. *)
Fixpoint monotoneFrom (t : Z) (es : list Event) : bool :=
  match es with
  | [] => true
  | Tick now :: es' => (t <=? now)%Z && monotoneFrom now es'
  | _ :: es' => monotoneFrom t es'
  end.

(** The event is not a tick, or is a tick at a clock after [T0] that
    falls in epoch [e]. *)
Definition inEpoch (T0 e : Z) (ev : Event) : Prop :=
  match ev with
  | Tick now => (T0 < now)%Z ∧ Sale.epochIndex T0 now = e
  | _ => True
  end.

(** A live, connected component whose recorded epoch is the epoch [e]
    it shows. *)
Definition syncedAt (T0 e : Z) (st : State) : Prop :=
  is_Some (userId st) ∧ saleStartTime st = T0 ∧ saleStarted st = true ∧
  currentEpoch st = e ∧ lastPurchaseEpoch st = e.

(** The epoch the component shows after its last tick at clock [t]:
    epoch 0 until the start instant [T0] has passed, the index of [t]
    after it. *)
Definition epochInv (T0 t : Z) (st : State) : Prop :=
  saleStartTime st = T0 ∧
  currentEpoch st = if (t <=? T0)%Z then 0%Z else Sale.epochIndex T0 t.

(** Does the callback take the branch that resets the epoch counter? *)
Definition resets (now : Z) (st : State) : bool :=
  (saleStartTime st - now <? 0)%Z
  && negb (Sale.epochIndex (saleStartTime st) now =? lastPurchaseEpoch st)%Z.

Section WithPow.

(** [Math.pow(base, exponent)] at an integer exponent.  The function
    belongs to the JavaScript engine, not to [App.js]; the component is
    embedded over any such function. *)
Variable Math_pow : float → Z → float.

(** [initialPrice * Math.pow(priceIncreaseFactor, currentEpochNum)] *)
Definition price (currentEpochNum : Z) : float :=
  (initialPrice * Math_pow priceIncreaseFactor currentEpochNum)%float.

(** One run of the [setInterval] callback of the countdown effect at
    clock [now].  On an epoch change it zeroes the epoch counter and,
    when there is a document, writes [lastPurchaseEpoch], which the
    listener copies back into the state. *)
Definition tick (now : Z) (st : State) : State :=
  let distance := (saleStartTime st - now)%Z in
  if (distance <? 0)%Z then
    let currentEpochNum := Sale.epochIndex (saleStartTime st) now in
    let changed := negb (currentEpochNum =? lastPurchaseEpoch st)%Z in
    {| userId := userId st; saleStartTime := saleStartTime st;
       saleStarted := true;
       currentEpoch := currentEpochNum;
       currentPrice := price currentEpochNum;
       buyAmount := buyAmount st;
       userPurchasedUSD := userPurchasedUSD st;
       userPurchasedUSDInCurrentEpoch :=
         if changed then 0%float else userPurchasedUSDInCurrentEpoch st;
       lastPurchaseEpoch :=
         if changed && bool_decide (is_Some (userId st))
         then currentEpochNum else lastPurchaseEpoch st |}
  else
    {| userId := userId st; saleStartTime := saleStartTime st;
       saleStarted := false;
       currentEpoch := currentEpoch st; currentPrice := currentPrice st;
       buyAmount := buyAmount st;
       userPurchasedUSD := userPurchasedUSD st;
       userPurchasedUSDInCurrentEpoch := userPurchasedUSDInCurrentEpoch st;
       lastPurchaseEpoch := lastPurchaseEpoch st |}.

Definition step (st : State) (e : Event) : State :=
  match e with
  | Tick now => tick now st
  | Input amount => setBuyAmount amount st
  | Buy => snd (handleBuy st)
  end.

Definition run (es : list Event) (st : State) : State :=
  fold_left step es st.

(** The displayed price is the price of the displayed epoch. *)
Definition priceInv (st : State) : Prop :=
  currentPrice st = price (currentEpoch st).

End WithPow.

(** A [Math.pow] by repeated multiplication, to evaluate the component
    at concrete inputs.  At the exponents 0, 1 and 2 it returns what a
    correctly rounded power returns: 1, the base, and the base times
    itself rounded once. *)
Definition powByMul (base : float) (exponent : Z) : float :=
  match exponent with
  | Z0 => 1%float
  | Zpos n => Pos.iter (λ acc, (acc * base)%float) 1%float n
  | Zneg n => (1 / Pos.iter (λ acc, (acc * base)%float) 1%float n)%float
  end.

End SaleDouble.

(** ** RaffleSlotSection *)

Module Raffle.

Definition EDINOSUR_TICKET_COST : Z := 50000.
Definition EDINOSUR_BURN_AMOUNT_PERCENTAGE : Q := 0.1.

(** [const symbols = ['', '', '', '', '', '']]: six times the empty
    string. *)
Definition symbols : list string :=
  [EmptyString; EmptyString; EmptyString; EmptyString; EmptyString;
   EmptyString].

Definition spinDuration : Z := 2000.
Definition spinInterval : Z := 100.

(** What the running [setInterval] callback of [handleSpin] holds: the
    [ticketCount] its closure captured when the spin began, and its
    [spinTimer]. *)
Record Spinning := {
  capturedTicketCount : Z;
  spinTimer : Z
}.

(** The state of the component.  A reel shows [None] for [undefined].
    [ticketCount] is the component's copy of the field [tickets] of
    [users/<uid>/data/raffle]. *)
Record State := {
  ticketQuantity : Z;
  totalCost : Z;
  ticketCount : Z;
  reel1 : option string;
  reel2 : option string;
  reel3 : option string;
  isSpinning : bool;
  intervalId : option Spinning
}.

Definition init : State :=
  {| ticketQuantity := 1; totalCost := EDINOSUR_TICKET_COST;
     ticketCount := 0;
     reel1 := Some EmptyString; reel2 := Some EmptyString;
     reel3 := Some EmptyString;
     isSpinning := false; intervalId := None |}.

(** The [onChange] of the quantity input followed by the effect on
    [ticketQuantity]: [setTicketQuantity(Math.max(1, parseInt(v) || 1))],
    [setTotalCost(ticketQuantity * EDINOSUR_TICKET_COST)].  [parsed] is
    [parseInt(v)], [None] when that is [NaN]. *)
Definition changeQuantity (parsed : option Z) (st : State) : State :=
  let n := match parsed with
           | Some v => if (v =? 0)%Z then 1%Z else v
           | None => 1%Z
           end in
  let quantity := Z.max 1 n in
  {| ticketQuantity := quantity;
     totalCost := (quantity * EDINOSUR_TICKET_COST)%Z;
     ticketCount := ticketCount st;
     reel1 := reel1 st; reel2 := reel2 st; reel3 := reel3 st;
     isSpinning := isSpinning st; intervalId := intervalId st |}.

Definition setTicketCount (n : Z) (st : State) : State :=
  {| ticketQuantity := ticketQuantity st; totalCost := totalCost st;
     ticketCount := n;
     reel1 := reel1 st; reel2 := reel2 st; reel3 := reel3 st;
     isSpinning := isSpinning st; intervalId := intervalId st |}.

(** [handleBuyTickets].  The tickets are written first
    ([updateFirestoreTickets]), then the staking document
    ([updateDoc], which rejects when the document does not exist). *)
Definition handleBuyTickets (userId : option string)
    (doc : option Staking.Doc) (st : State)
  : Notice * (option Staking.Doc * State) :=
  match userId with
  | None => (NotAuthenticated, (doc, st))
  | Some _ =>
    let currentEDinosurBalance := Js.orZero (doc ≫= Staking.earned) in
    let currentReadyToBurnEDinosur :=
      Js.orZero (doc ≫= Staking.readyToBurnEDinosur) in
    if Js.geb currentEDinosurBalance (inject_Z (totalCost st)) then
      let newTicketCount := (ticketCount st + ticketQuantity st)%Z in
      let remainingEDinosur :=
        currentEDinosurBalance - inject_Z (totalCost st) in
      let burnAmount :=
        inject_Z (totalCost st) * EDINOSUR_BURN_AMOUNT_PERCENTAGE in
      let newReadyToBurnEDinosur :=
        currentReadyToBurnEDinosur + burnAmount in
      let st' := setTicketCount newTicketCount st in
      match doc with
      | Some d =>
          (TicketsBought (ticketQuantity st) (inject_Z (totalCost st))
             burnAmount,
           (Some {| Staking.nfts := Staking.nfts d;
                    Staking.earned := Some remainingEDinosur;
                    Staking.readyToBurnEDinosur :=
                      Some newReadyToBurnEDinosur;
                    Staking.totalBurntEDinosur :=
                      Staking.totalBurntEDinosur d |},
            st'))
      | None => (PersistenceFailure, (doc, st'))
      end
    else (InsufficientBalance, (doc, st))
  end.

(** [symbols[Math.floor(u * symbols.length)]] for a value [u] of
    [Math.random()]. *)
Definition reelIndex (u : Q) : Z :=
  Qfloor (u * inject_Z (Z.of_nat (length symbols))).

Definition pick (u : Q) : option string :=
  if (reelIndex u <? 0)%Z then None
  else symbols !! Z.to_nat (reelIndex u).

(** The result branches at the end of a spin. *)
Definition classify (finalReel1 finalReel2 finalReel3 : option string)
  : Outcome :=
  if bool_decide (finalReel1 = finalReel2)
     && bool_decide (finalReel2 = finalReel3) then Jackpot
  else if bool_decide (finalReel1 = finalReel2)
          || bool_decide (finalReel2 = finalReel3)
          || bool_decide (finalReel1 = finalReel3) then PartialMatch
  else NoWin.

Definition handleSpin (st : State) : Notice * State :=
  if isSpinning st then (AlreadySpinning, st)
  else if (0 <? ticketCount st)%Z then
    (SpinStarted,
     {| ticketQuantity := ticketQuantity st; totalCost := totalCost st;
        ticketCount := ticketCount st;
        reel1 := reel1 st; reel2 := reel2 st; reel3 := reel3 st;
        isSpinning := true;
        intervalId :=
          Some {| capturedTicketCount := ticketCount st;
                  spinTimer := 0 |} |})
  else (NoTicketsAvailable, st).

(** One run of the interval callback registered by [handleSpin].
    [random k] is the value of the [k]-th call of [Math.random()] in
    this run: three calls for the moving reels and, in the last run,
    three more for the final reels. *)
Definition spinTick (random : nat → Q) (st : State)
  : option Notice * State :=
  match intervalId st with
  | None => (None, st)
  | Some sp =>
    let spinTimer' := (spinTimer sp + spinInterval)%Z in
    if (spinDuration <=? spinTimer')%Z then
      let newTicketCount := (capturedTicketCount sp - 1)%Z in
      let finalReel1 := pick (random 3%nat) in
      let finalReel2 := pick (random 4%nat) in
      let finalReel3 := pick (random 5%nat) in
      (Some (SpinResult (classify finalReel1 finalReel2 finalReel3)),
       {| ticketQuantity := ticketQuantity st; totalCost := totalCost st;
          ticketCount := newTicketCount;
          reel1 := finalReel1; reel2 := finalReel2; reel3 := finalReel3;
          isSpinning := false; intervalId := None |})
    else
      (None,
       {| ticketQuantity := ticketQuantity st; totalCost := totalCost st;
          ticketCount := ticketCount st;
          reel1 := pick (random 0%nat);
          reel2 := pick (random 1%nat);
          reel3 := pick (random 2%nat);
          isSpinning := isSpinning st;
          intervalId :=
            Some {| capturedTicketCount := capturedTicketCount sp;
                    spinTimer := spinTimer' |} |})
  end.

(** [n] successive runs of the callback; [random i] feeds the [i]-th
    run. *)
Fixpoint spinTicks (n : nat) (random : nat → nat → Q) (st : State)
  : State :=
  match n with
  | O => st
  | S n' =>
      spinTicks n' (λ i, random (S i)) (snd (spinTick (random 0%nat) st))
  end.

(** What can happen to the mounted component: the user presses Spin, the
    spin's timer fires, the user edits the quantity, the user presses Buy
    Tickets while the staking document is [doc]. *)
Inductive Event :=
| Spin
| TimerRun (random : nat → Q)
| Quantity (parsed : option Z)
| BuyTickets (userId : option string) (doc : option Staking.Doc).

Definition step (st : State) (e : Event) : State :=
  match e with
  | Spin => snd (handleSpin st)
  | TimerRun random => snd (spinTick random st)
  | Quantity parsed => changeQuantity parsed st
  | BuyTickets userId doc => snd (snd (handleBuyTickets userId doc st))
  end.

Definition run (es : list Event) (st : State) : State :=
  fold_left step es st.

(** The quantity to buy is at least one, and reels only spin on a
    positive ticket count. *)
Definition spinInv (st : State) : Prop :=
  (1 <= ticketQuantity st)%Z ∧
  (isSpinning st = true → (0 < ticketCount st)%Z).

End Raffle.

(** ** NFTStakingSection: staking, earning and claiming

    The handlers below act on the component's local state.  Each also
    calls [updateFirestoreStaking].  [handleStakeNFT] and
    [handleUnstakeNFT] raise their message after that call; the model
    returns its arguments as a [Write].  [handleClaimReward] raises its
    message before the call, so what the call does decides what the
    holder is left with. *)

Module StakingSection.

Inductive Notice :=
| Staked (id : Z)               (* "NFT #id staked successfully!" *)
| Unstaked (id : Z)             (* "NFT #id unstaked." *)
| Claimed (amount : Q)          (* "Claimed ... $eDINOSUR!" *)
| NothingToClaim                (* "No $eDINOSUR to claim yet!" *)
| SaveNeedsWallet               (* "Please connect your wallet to save ..." *)
| UpdateFailed.                 (* "Failed to update staking data: ..." *)

Record State := {
  stakedNFTs : list Staking.NFT;
  totalEarned : Q
}.

(** The arguments of one call of [updateFirestoreStaking].  The third one
    is [stakedNFTs.readyToBurnEDinosur], a property the array does not
    have: [None]. *)
Record Write := {
  updatedNFTs : list Staking.NFT;
  updatedEarned : Q;
  updatedReadyToBurnEDinosur : option Q
}.

(** [nft.id === id ? { ...nft, staked: true, lastStakedTime: Date.now() }
    : nft] *)
Definition stakeOne (id now : Z) (nft : Staking.NFT) : Staking.NFT :=
  if (Staking.id nft =? id)%Z then
    {| Staking.id := Staking.id nft; Staking.type := Staking.type nft;
       Staking.earning := Staking.earning nft;
       Staking.staked := true; Staking.lastStakedTime := now |}
  else nft.

(** [nft.id === id ? { ...nft, staked: false, lastStakedTime: 0 } : nft] *)
Definition unstakeOne (id : Z) (nft : Staking.NFT) : Staking.NFT :=
  if (Staking.id nft =? id)%Z then
    {| Staking.id := Staking.id nft; Staking.type := Staking.type nft;
       Staking.earning := Staking.earning nft;
       Staking.staked := false; Staking.lastStakedTime := 0 |}
  else nft.

(** [handleStakeNFT(id)] at clock [now]. *)
Definition handleStakeNFT (id now : Z) (st : State)
  : Notice * State * Write :=
  let updatedNFTs := stakeOne id now <$> stakedNFTs st in
  (Staked id,
   {| stakedNFTs := updatedNFTs; totalEarned := totalEarned st |},
   {| updatedNFTs := updatedNFTs; updatedEarned := totalEarned st;
      updatedReadyToBurnEDinosur := None |}).

Definition handleUnstakeNFT (id : Z) (st : State)
  : Notice * State * Write :=
  let updatedNFTs := unstakeOne id <$> stakedNFTs st in
  (Unstaked id,
   {| stakedNFTs := updatedNFTs; totalEarned := totalEarned st |},
   {| updatedNFTs := updatedNFTs; updatedEarned := totalEarned st;
      updatedReadyToBurnEDinosur := None |}).

(** What one call of [updateFirestoreStaking] does with its arguments:
    the message it raises, if any, and the data it persists, if any.
    Without a document reference it only raises its message.  [setDoc]
    rejects data in which a field is [undefined], and the [catch] reports
    that. *)
Definition updateFirestoreStaking (userId : option string) (w : Write)
  : option Notice * option Write :=
  match userId with
  | None => (Some SaveNeedsWallet, None)
  | Some _ =>
      match updatedReadyToBurnEDinosur w with
      | None => (Some UpdateFailed, None)
      | Some _ => (None, Some w)
      end
  end.

(** [handleClaimReward].  It raises "Claimed ..." first and then calls
    [updateFirestoreStaking], whose message, when it raises one, replaces
    that one.  The result holds the message left on display, the next
    state and what was persisted. *)
Definition handleClaimReward (userId : option string) (st : State)
  : Notice * State * option Write :=
  if Js.gtb (totalEarned st) 0 then
    let saved :=
      updateFirestoreStaking userId
        {| updatedNFTs := stakedNFTs st; updatedEarned := 0;
           updatedReadyToBurnEDinosur := None |} in
    (default (Claimed (totalEarned st)) (fst saved),
     {| stakedNFTs := stakedNFTs st; totalEarned := 0 |},
     snd saved)
  else (NothingToClaim, st, None).

(** The sum the earning interval accumulates with [forEach] over
    [stakedNFTs.filter(nft => nft.staked)]. *)
Definition baseDailyEarnings (nfts : list Staking.NFT) : Q :=
  fold_left (λ acc nft, acc + Staking.earning nft)
    (filter (λ nft, Staking.staked nft = true) nfts) 0.

(** What one run of the interval adds:
    [actualDailyEarnings / (24 * 60 * 60)]. *)
Definition perSecond (nfts : list Staking.NFT) : Q :=
  let currentMultiplier := Staking.calculateMultiplier nfts in
  let actualDailyEarnings := baseDailyEarnings nfts * currentMultiplier in
  actualDailyEarnings / (24 * 60 * 60).

(** One run of the earning interval:
    [setTotalEarned(prev => prev + actualDailyEarnings / (24 * 60 * 60))]. *)
Definition earnTick (st : State) : State :=
  {| stakedNFTs := stakedNFTs st;
     totalEarned := totalEarned st + perSecond (stakedNFTs st) |}.

(** What can happen to the asset list: a stake, an unstake, or a slot
    purchase, which appends the new slot to the document's list, of which
    the state holds a copy. *)
Inductive ListEvent :=
| StakeEv (id now : Z)
| UnstakeEv (id : Z)
| AddSlotEv.

Definition listStep (nfts : list Staking.NFT) (e : ListEvent)
  : list Staking.NFT :=
  match e with
  | StakeEv id now => stakeOne id now <$> nfts
  | UnstakeEv id => unstakeOne id <$> nfts
  | AddSlotEv => nfts ++ [Staking.newSlot nfts]
  end.

End StakingSection.

(** ** EDinosurSection: claiming the balance *)

Module EDinosur.

Inductive Notice :=
| ClaimedAtTGE (amount : Q)     (* "Congratulations! You have claimed ..." *)
| NothingToClaim                (* "You have no $eDINOSUR to claim yet!" *)
| ResetFailed.                  (* "Failed to reset $eDINOSUR balance: ..." *)

(** [handleClaimDinosur]; [eDinosurBalance] is the listener's copy
    [data.earned || 0]; [updateDoc(ref, { earned: 0 })] rejects when the
    document does not exist. *)
Definition handleClaimDinosur (s : Burn.Store) : Notice * Burn.Store :=
  let eDinosurBalance := Js.orZero (Burn.staking s ≫= Staking.earned) in
  if Js.gtb eDinosurBalance 0 then
    match Burn.staking s with
    | Some d =>
        (ClaimedAtTGE eDinosurBalance,
         {| Burn.staking :=
              Some {| Staking.nfts := Staking.nfts d;
                      Staking.earned := Some 0;
                      Staking.readyToBurnEDinosur :=
                        Staking.readyToBurnEDinosur d;
                      Staking.totalBurntEDinosur :=
                        Staking.totalBurntEDinosur d |};
            Burn.globalStats := Burn.globalStats s |})
    | None => (ResetFailed, s)
    end
  else (NothingToClaim, s).

End EDinosur.

(** ** EDinosurSaleSection: the countdown and the estimate *)

Module SaleView.

Record TimeLeft := {
  days : Z;
  hours : Z;
  minutes : Z;
  seconds : Z
}.

(** What the countdown callback passes to [setTimeLeft] at clock [now].
    In the branch that computes it [distance >= 0], where [%] is the
    modulo of [Z]. *)
Definition timeLeft (now : Z) (st : Sale.State) : TimeLeft :=
  let distance := (Sale.saleStartTime st - now)%Z in
  if (distance <? 0)%Z then
    {| days := 0; hours := 0; minutes := 0; seconds := 0 |}
  else
    {| days := Js.floorDiv distance (1000 * 60 * 60 * 24);
       hours := Js.floorDiv (distance mod (1000 * 60 * 60 * 24))
                  (1000 * 60 * 60);
       minutes := Js.floorDiv (distance mod (1000 * 60 * 60)) (1000 * 60);
       seconds := Js.floorDiv (distance mod (1000 * 60)) 1000 |}.


(** Every [Tick] of the events is at a clock no later than [T0]. *)
Definition allPending (T0 : Z) (es : list Sale.Event) : Prop :=
  Forall (λ e, match e with Sale.Tick now => (now <= T0)%Z | _ => True end)
    es.

(** The bounds the purchase counters keep. *)
Definition capsInv (st : Sale.State) : Prop :=
  0 <= Sale.userPurchasedUSDInCurrentEpoch st ∧
  Sale.userPurchasedUSDInCurrentEpoch st <= Sale.userPurchasedUSD st ∧
  Sale.userPurchasedUSD st <= 1000 ∧
  Sale.userPurchasedUSDInCurrentEpoch st <= 250 ∧
  0 < Sale.currentPrice st.

(** After its last tick at clock [t], the component shows the sale as
    started only if [t] is past the start instant [T0]. *)
Definition startedInv (T0 t : Z) (st : Sale.State) : Prop :=
  Sale.saleStartTime st = T0 ∧
  (Sale.saleStarted st = true ↔ (T0 < t)%Z).

End SaleView.

(** ** RaffleSlotSection: the activity log and the ticket counter *)

Module RaffleLog.

(** [[message, ...prev].slice(0, 5)], the update of [blockchainActivity]
    made by the activity interval, by [handleBuyTickets] and at the end of
    a spin. *)
Definition pushActivity (message : string) (prev : list string)
  : list string :=
  take 5 (message :: prev).

(** The log after the messages [ms] arrived in that order. *)
Definition pushAll (ms prev : list string) : list string :=
  fold_left (λ log m, pushActivity m log) ms prev.

Definition isTimerRun (e : Raffle.Event) : bool :=
  match e with
  | Raffle.TimerRun _ => true
  | _ => false
  end.

(** The number of runs of the spin timer among the events. *)
Definition timerRuns (es : list Raffle.Event) : nat :=
  length (filter (λ e, isTimerRun e = true) es).

(** What the states of the component keep: a quantity of at least one
    with its cost, a ticket count that is not negative, and a running spin
    that captured at least one ticket. *)
Definition ticketInv (st : Raffle.State) : Prop :=
  (1 <= Raffle.ticketQuantity st)%Z ∧
  Raffle.totalCost st
    = (Raffle.ticketQuantity st * Raffle.EDINOSUR_TICKET_COST)%Z ∧
  (0 <= Raffle.ticketCount st)%Z ∧
  (∀ sp, Raffle.intervalId st = Some sp →
         (1 <= Raffle.capturedTicketCount sp)%Z).

End RaffleLog.

(** ** AffiliatePagesSection *)

Module Affiliate.

Inductive Notice :=
| ClaimedReferral (amount : Q)  (* "Claimed ... $eDINOSUR from referrals!" *)
| NothingToClaim                (* "No referral earnings to claim yet!" *)
| ClaimFailed                   (* "Failed to claim referral earnings: ..." *)
| NewReferral.                  (* "Simulated: A new referral joined!" *)

(** The state of the component of a connected wallet. *)
Record State := {
  referralCount : Z;
  referralEarnings : Q
}.

(** [75000 / (24 * 60 * 60)] *)
Definition earningRatePerReferralPerSecond : Q := 75000 / (24 * 60 * 60).

(** One run of the earning interval. *)
Definition earnTick (st : State) : State :=
  {| referralCount := referralCount st;
     referralEarnings :=
       referralEarnings st
       + inject_Z (referralCount st) * earningRatePerReferralPerSecond |}.

(** [handleClaimReferralEarnings] on the staking document [doc].
    [updateDoc] rejects when the document does not exist, before the
    earnings are zeroed. *)
Definition handleClaimReferralEarnings (doc : option Staking.Doc)
    (st : State) : Notice * (option Staking.Doc * State) :=
  if Js.gtb (referralEarnings st) 0 then
    let currentEDinosur := Js.orZero (doc ≫= Staking.earned) in
    match doc with
    | Some d =>
        (ClaimedReferral (referralEarnings st),
         (Some {| Staking.nfts := Staking.nfts d;
                  Staking.earned :=
                    Some (currentEDinosur + referralEarnings st);
                  Staking.readyToBurnEDinosur :=
                    Staking.readyToBurnEDinosur d;
                  Staking.totalBurntEDinosur :=
                    Staking.totalBurntEDinosur d |},
          {| referralCount := referralCount st; referralEarnings := 0 |}))
    | None => (ClaimFailed, (doc, st))
    end
  else (NothingToClaim, (doc, st)).

Definition simulateNewReferral (st : State) : Notice * State :=
  let newCount := (referralCount st + 1)%Z in
  (NewReferral,
   {| referralCount := newCount; referralEarnings := referralEarnings st |}).

End Affiliate.

(** ** The amounts of the staking document *)

Module Ledger.

(** Balance, readyToBurn and totalBurnt as the components read them. *)
Definition balance (doc : option Staking.Doc) : Q :=
  Js.orZero (doc ≫= Staking.earned).
Definition readyToBurn (doc : option Staking.Doc) : Q :=
  Js.orZero (doc ≫= Staking.readyToBurnEDinosur).
Definition totalBurnt (doc : option Staking.Doc) : Q :=
  Js.orZero (doc ≫= Staking.totalBurntEDinosur).

Definition nonneg (doc : option Staking.Doc) : Prop :=
  0 <= balance doc ∧ 0 <= readyToBurn doc ∧ 0 <= totalBurnt doc.

End Ledger.

(** ** Sample states

    Concrete documents and component states, used to evaluate the
    handlers. *)

Definition seedNFTs : list Staking.NFT :=
  [ {| Staking.id := 1; Staking.type := "Common"; Staking.earning := 5000;
       Staking.staked := true; Staking.lastStakedTime := 0 |};
    {| Staking.id := 2; Staking.type := "Rare"; Staking.earning := 10000;
       Staking.staked := true; Staking.lastStakedTime := 0 |};
    {| Staking.id := 3; Staking.type := "Unique"; Staking.earning := 15000;
       Staking.staked := false; Staking.lastStakedTime := 0 |} ].

Definition fundedDoc (balance : Q) : option Staking.Doc :=
  Some {| Staking.nfts := Some seedNFTs;
          Staking.earned := Some balance;
          Staking.readyToBurnEDinosur := Some 0;
          Staking.totalBurntEDinosur := Some 0 |}.

Definition burnStore : Burn.Store :=
  {| Burn.staking :=
       Some {| Staking.nfts := Some seedNFTs;
               Staking.earned := Some 0;
               Staking.readyToBurnEDinosur := Some 100000;
               Staking.totalBurntEDinosur := Some 15000 |};
     Burn.globalStats :=
       Some {| Burn.readyToBurnDinosur := Some 0;
               Burn.totalBurntDinosur := Some 7 |} |}.

(** A connected wallet in epoch 0 of a sale that began at clock 0. *)
Definition liveSale (lifetime inEpoch : Q) (amount : option Q) : Sale.State :=
  {| Sale.userId := Some "holder";
     Sale.saleStartTime := 0;
     Sale.saleStarted := true;
     Sale.currentEpoch := 0;
     Sale.currentPrice := Sale.initialPrice;
     Sale.buyAmount := amount;
     Sale.userPurchasedUSD := lifetime;
     Sale.userPurchasedUSDInCurrentEpoch := inEpoch;
     Sale.lastPurchaseEpoch := 0 |}.

(** [Math.random()] returning one half at every call. *)
Definition half : nat → Q := λ _, 1 # 2.

(** A spin begun with two tickets, one run of the timer before its end. *)
Definition lastRun : Raffle.State :=
  {| Raffle.ticketQuantity := 1;
     Raffle.totalCost := Raffle.EDINOSUR_TICKET_COST;
     Raffle.ticketCount := 2;
     Raffle.reel1 := Some EmptyString; Raffle.reel2 := Some EmptyString;
     Raffle.reel3 := Some EmptyString;
     Raffle.isSpinning := true;
     Raffle.intervalId :=
       Some {| Raffle.capturedTicketCount := 2;
               Raffle.spinTimer := 1900 |} |}.

(** The three assets a new holder is shown, all unstaked. *)
Definition defaultNFTs : list Staking.NFT :=
  [ {| Staking.id := 1; Staking.type := "Common"; Staking.earning := 5000;
       Staking.staked := false; Staking.lastStakedTime := 0 |};
    {| Staking.id := 2; Staking.type := "Rare"; Staking.earning := 10000;
       Staking.staked := false; Staking.lastStakedTime := 0 |};
    {| Staking.id := 3; Staking.type := "Unique"; Staking.earning := 15000;
       Staking.staked := false; Staking.lastStakedTime := 0 |} ].

Definition freshStaking : StakingSection.State :=
  {| StakingSection.stakedNFTs := defaultNFTs;
     StakingSection.totalEarned := 10 |}.

Definition earningStaking : StakingSection.State :=
  {| StakingSection.stakedNFTs := seedNFTs;
     StakingSection.totalEarned := 10 |}.

(** Ten runs of the spin timer, a purchase of tickets, nine more runs. *)
Definition busySpin : list Raffle.Event :=
  replicate 10 (Raffle.TimerRun half)
  ++ [Raffle.BuyTickets (Some "holder") (fundedDoc 200000)]
  ++ replicate 9 (Raffle.TimerRun half).


(** The start instant of a sale component mounted at clock 0. *)
Definition saleStart : Z :=
  SaleDouble.saleStartTime (SaleDouble.init (Some "holder") 0).

(** A connected wallet after the first tick of epoch 0 and three purchases
    of 1,000,000 tokens, with 3,000,000 more typed in. *)
Definition spent150 : SaleDouble.State :=
  SaleDouble.run SaleDouble.powByMul
    [SaleDouble.Tick (saleStart + 1);
     SaleDouble.Input 1000000; SaleDouble.Buy;
     SaleDouble.Input 1000000; SaleDouble.Buy;
     SaleDouble.Input 1000000; SaleDouble.Buy;
     SaleDouble.Input 3000000]
    (SaleDouble.init (Some "holder") 0).

(** A connected wallet after the first tick of epoch 0 and a purchase of
    5,000,000 tokens: the epoch counter is at its cap. *)
Definition fullCounter : SaleDouble.State :=
  SaleDouble.run SaleDouble.powByMul
    [SaleDouble.Tick (saleStart + 1);
     SaleDouble.Input 5000000; SaleDouble.Buy]
    (SaleDouble.init (Some "holder") 0).

(** A spin pressed on one ticket, one more ticket bought while the reels
    turn, then the twenty runs of the spin's timer. *)
Definition boughtWhileSpinning : list Raffle.Event :=
  [Raffle.Spin; Raffle.BuyTickets (Some "holder") (fundedDoc 200000)]
  ++ replicate 20 (Raffle.TimerRun half).

(** * Properties *)

(** Settles a decidable proposition by evaluating its decision. *)
Ltac by_compute :=
  match goal with
  | |- ?P => refine (bool_decide_unpack P _); vm_compute; exact I
  end.

(** Settles a comparison of two rational constants. *)
Ltac by_Qcompare :=
  first [ reflexivity | vm_compute; discriminate | vm_compute; reflexivity ].

(** ** C3: the slot price *)

Lemma addSlotCost_low (n : Z) :
  (n <= 3)%Z → Staking.calculateAddSlotCost n = 200000.
Proof.
  intros Hn. unfold Staking.calculateAddSlotCost.
  destruct (Z.leb_spec 4 n); [lia | reflexivity].
Qed.

Lemma addSlotCost_high (n : Z) :
  (4 <= n)%Z → Staking.calculateAddSlotCost n = 200000 * 1.5 ^ (n - 3).
Proof.
  intros Hn. unfold Staking.calculateAddSlotCost.
  destruct (Z.leb_spec 4 n); [reflexivity | lia].
Qed.

(** C3. For every slot count [n] with [0 <= n <= 3] the cost of one more
    slot is 200000; for every [n >= 4] it is [200000 * 1.5^(n-3)]; the
    cost at 4 slots is 300000 and at 6 slots 675000. *)
Theorem C3_costOf :
  (∀ n : Z, (0 <= n <= 3)%Z → Staking.calculateAddSlotCost n = 200000) ∧
  (∀ n : Z, (4 <= n)%Z →
     Staking.calculateAddSlotCost n = 200000 * 1.5 ^ (n - 3)) ∧
  Staking.calculateAddSlotCost 4 == 300000 ∧
  Staking.calculateAddSlotCost 6 == 675000.
Proof.
  split; [|split; [|split]].
  - intros n [_ Hn]. by apply addSlotCost_low.
  - apply addSlotCost_high.
  - reflexivity.
  - reflexivity.
Qed.

(** ** C5: the earning multiplier *)

Section Multiplier.
Import Staking.

Lemma elem_of_stakedTypes (nfts : list NFT) (t : string) :
  t ∈ stakedTypes nfts ↔
  ∃ nft, nft ∈ nfts ∧ staked nft = true ∧ type nft = t.
Proof.
  unfold stakedTypes. rewrite elem_of_list_to_set, list_elem_of_fmap.
  split.
  - intros (nft & -> & Hin). apply list_elem_of_filter in Hin as [Hs Hin].
    by exists nft.
  - intros (nft & Hin & Hs & <-). exists nft. split; [done|].
    by apply list_elem_of_filter.
Qed.

Lemma stakedTypes_filter (nfts : list NFT) :
  stakedTypes (filter (λ nft, staked nft = true) nfts) = stakedTypes nfts.
Proof.
  apply set_eq. intros t. rewrite !elem_of_stakedTypes.
  split; intros (nft & Hin & Hs & Ht); exists nft.
  - apply list_elem_of_filter in Hin as [_ Hin]. done.
  - split; [|done]. by apply list_elem_of_filter.
Qed.

Lemma stakedTypes_nil_iff (nfts : list NFT) :
  stakedTypes nfts = ∅ ↔ ∀ nft, nft ∈ nfts → staked nft = false.
Proof.
  split.
  - intros He nft Hin. destruct (staked nft) eqn:Hs; [|done].
    assert (type nft ∈ stakedTypes nfts) as Hel
      by (apply elem_of_stakedTypes; by exists nft).
    rewrite He in Hel. set_solver.
  - intros Hall. apply set_eq. intros t. rewrite elem_of_stakedTypes.
    split; [|set_solver].
    intros (nft & Hin & Hs & _). rewrite (Hall nft Hin) in Hs. done.
Qed.

End Multiplier.

(** C5. For every set [S] of tiers of staked assets the multiplier is 1.00
    when [S] is empty, 1.50 when Legend is in [S], else 1.30 when King is,
    else 1.15 when Unique is, else 1.05 when Common or Rare is.  The set
    [S] that [calculateMultiplier] evaluates holds exactly the tiers of the
    assets with [staked = true], so assets with [staked = false] do not
    count, and two asset lists with the same staked tiers, however many
    assets share a tier, get the same multiplier. *)
Theorem C5_multiplier :
  (∀ S : gset string,
     (S = ∅ → Staking.multiplierOf S = 1.0) ∧
     ("Legend" ∈ S → Staking.multiplierOf S = 1.5) ∧
     ("Legend" ∉ S → "King" ∈ S → Staking.multiplierOf S = 1.3) ∧
     ("Legend" ∉ S → "King" ∉ S → "Unique" ∈ S →
        Staking.multiplierOf S = 1.15) ∧
     ("Legend" ∉ S → "King" ∉ S → "Unique" ∉ S →
        "Common" ∈ S ∨ "Rare" ∈ S → Staking.multiplierOf S = 1.05)) ∧
  (∀ nfts : list Staking.NFT,
     Staking.calculateMultiplier nfts
       = Staking.multiplierOf (Staking.stakedTypes nfts) ∧
     (∀ t, t ∈ Staking.stakedTypes nfts ↔
           ∃ nft, nft ∈ nfts ∧ Staking.staked nft = true
                  ∧ Staking.type nft = t) ∧
     Staking.calculateMultiplier
         (filter (λ nft, Staking.staked nft = true) nfts)
       = Staking.calculateMultiplier nfts ∧
     ((∀ nft, nft ∈ nfts → Staking.staked nft = false) →
        Staking.calculateMultiplier nfts = 1.0)) ∧
  (∀ nfts1 nfts2 : list Staking.NFT,
     (∀ t, (∃ nft, nft ∈ nfts1 ∧ Staking.staked nft = true
                   ∧ Staking.type nft = t) ↔
           (∃ nft, nft ∈ nfts2 ∧ Staking.staked nft = true
                   ∧ Staking.type nft = t)) →
     Staking.calculateMultiplier nfts1 = Staking.calculateMultiplier nfts2).
Proof.
  split; [|split].
  - intros S. unfold Staking.multiplierOf. repeat split.
    + intros ->. repeat (rewrite bool_decide_eq_false_2 by set_solver).
      reflexivity.
    + intros H. by rewrite bool_decide_eq_true_2.
    + intros H1 H2. rewrite bool_decide_eq_false_2 by done.
      by rewrite bool_decide_eq_true_2.
    + intros H1 H2 H3. rewrite !bool_decide_eq_false_2 by done.
      by rewrite bool_decide_eq_true_2.
    + intros H1 H2 H3 H4.
      rewrite (bool_decide_eq_false_2 _ H1), (bool_decide_eq_false_2 _ H2),
        (bool_decide_eq_false_2 _ H3).
      destruct H4 as [H4|H4]; rewrite (bool_decide_eq_true_2 _ H4);
        [reflexivity|].
      by rewrite orb_true_r.
  - intros nfts. split; [reflexivity|]. split; [|split].
    + apply elem_of_stakedTypes.
    + unfold Staking.calculateMultiplier. by rewrite stakedTypes_filter.
    + intros Hnone. apply stakedTypes_nil_iff in Hnone.
      unfold Staking.calculateMultiplier. by rewrite Hnone.
  - intros nfts1 nfts2 Hsame. unfold Staking.calculateMultiplier.
    f_equal. apply set_eq. intros t. rewrite !elem_of_stakedTypes.
    apply Hsame.
Qed.

(** ** C1: buying a staking slot *)

Section AddSlot.
Import Staking.

Lemma geb_true (x y : Q) : y <= x → Js.geb x y = true.
Proof. intros H. unfold Js.geb. by apply Qle_bool_iff. Qed.

Lemma geb_false (x y : Q) : x < y → Js.geb x y = false.
Proof.
  intros H. unfold Js.geb. destruct (Qle_bool y x) eqn:E; [|done].
  apply Qle_bool_iff in E. exfalso. by apply (Qlt_not_le x y).
Qed.

Lemma gtb_true (x y : Q) : y < x → Js.gtb x y = true.
Proof.
  intros H. unfold Js.gtb. destruct (Qle_bool x y) eqn:E; [|done].
  apply Qle_bool_iff in E. exfalso. by apply (Qlt_not_le y x).
Qed.

Lemma Qle_bool_false (x y : Q) : y < x → Qle_bool x y = false.
Proof.
  intros H. destruct (Qle_bool x y) eqn:E; [|done].
  apply Qle_bool_iff in E. exfalso. by apply (Qlt_not_le y x).
Qed.

Lemma gtb_false (x y : Q) : x <= y → Js.gtb x y = false.
Proof.
  intros H. unfold Js.gtb. apply Qle_bool_iff in H. by rewrite H.
Qed.

(** [Math.max] returns one of its arguments, and bounds them all. *)
Lemma max_upper (xs : list Z) (x : Z) :
  ∀ y, y ∈ x :: xs → (y <= Js.max x xs)%Z.
Proof.
  unfold Js.max. revert x. induction xs as [|a xs IH]; intros x y Hy.
  - apply list_elem_of_singleton in Hy as ->. simpl. lia.
  - simpl. apply elem_of_cons in Hy as [->|Hy].
    + etrans; [|apply (IH (Z.max x a)); left]. lia.
    + apply elem_of_cons in Hy as [->|Hy].
      * etrans; [|apply (IH (Z.max x a)); left]. lia.
      * apply IH. by right.
Qed.

Lemma max_elem (xs : list Z) (x : Z) : Js.max x xs ∈ x :: xs.
Proof.
  unfold Js.max. revert x. induction xs as [|a xs IH]; intros x.
  - simpl. left.
  - simpl. specialize (IH (Z.max x a)).
    apply elem_of_cons in IH as [Heq|Hin].
    + rewrite Heq. destruct (Z.max_spec x a) as [[_ ->]|[_ ->]].
      * right. left.
      * left.
    + right. by right.
Qed.

Lemma newId_nil : newId [] = 1%Z.
Proof. reflexivity. Qed.

Lemma newId_above (currentNFTs : list NFT) (nft : NFT) :
  nft ∈ currentNFTs → (id nft < newId currentNFTs)%Z.
Proof.
  intros Hin. unfold newId.
  assert (id nft ∈ id <$> currentNFTs) as Hid
    by (by apply list_elem_of_fmap_2).
  destruct (id <$> currentNFTs) as [|i ids]; [by apply elem_of_nil in Hid|].
  pose proof (max_upper ids i _ Hid). lia.
Qed.

Lemma newId_succ (currentNFTs : list NFT) :
  currentNFTs ≠ [] →
  ∃ nft, nft ∈ currentNFTs ∧ newId currentNFTs = (id nft + 1)%Z.
Proof.
  intros Hne. unfold newId.
  destruct (id <$> currentNFTs) as [|i ids] eqn:E.
  - destruct currentNFTs; [done|discriminate].
  - pose proof (max_elem ids i) as Hin. rewrite <- E in Hin.
    apply list_elem_of_fmap in Hin as (nft & Heq & Hin).
    exists nft. split; [done|]. by rewrite Heq.
Qed.

End AddSlot.

(** C1. A slot purchase at cost [C] on an account whose balance is below
    [C] reports InsufficientBalance and leaves the whole document (balance,
    readyToBurn, assets) as it was.  With a balance of at least [C] it
    writes, in one update, the balance less [C], readyToBurn plus
    [C * 0.5], and the asset list with exactly one asset appended, of tier
    "New Slot" (unassigned), rate 0, not staked, whose id is 1 on an empty
    list and otherwise one more than the greatest existing id.
    [handleAddSlot] is this purchase at the cost of the current slot
    count. *)
Theorem C1_purchaseSlot (C : Q) (doc : option Staking.Doc) :
  let balance := Js.orZero (doc ≫= Staking.earned) in
  let readyToBurn := Js.orZero (doc ≫= Staking.readyToBurnEDinosur) in
  let assets := default [] (doc ≫= Staking.nfts) in
  (balance < C →
     Staking.purchaseSlot C doc = (InsufficientBalance, doc)) ∧
  (C <= balance →
     ∃ (doc' : Staking.Doc) (slot : Staking.NFT),
       Staking.purchaseSlot C doc
         = (SlotBought C (C * 0.5) (C - C * 0.5), Some doc') ∧
       Staking.earned doc' = Some (balance - C) ∧
       Staking.readyToBurnEDinosur doc' = Some (readyToBurn + C * 0.5) ∧
       Staking.totalBurntEDinosur doc' = doc ≫= Staking.totalBurntEDinosur ∧
       Staking.nfts doc' = Some (assets ++ [slot]) ∧
       Staking.type slot = "New Slot" ∧
       Staking.earning slot = 0 ∧
       Staking.staked slot = false ∧
       (assets = [] → Staking.id slot = 1%Z) ∧
       (∀ nft, nft ∈ assets → (Staking.id nft < Staking.id slot)%Z) ∧
       (assets ≠ [] →
          ∃ nft, nft ∈ assets ∧ Staking.id slot = (Staking.id nft + 1)%Z)) ∧
  (∀ uid : string,
     Staking.handleAddSlot (Some uid) doc
       = Staking.purchaseSlot
           (Staking.calculateAddSlotCost (Z.of_nat (length assets))) doc).
Proof.
  intros balance readyToBurn assets. split; [|split].
  - intros Hlt. unfold Staking.purchaseSlot.
    fold balance. by rewrite (geb_false _ _ Hlt).
  - intros Hle. unfold Staking.purchaseSlot.
    fold balance readyToBurn assets. rewrite (geb_true _ _ Hle).
    eexists _, (Staking.newSlot assets).
    split; [reflexivity|]. simpl.
    repeat split; try reflexivity.
    + intros ->. reflexivity.
    + apply newId_above.
    + apply newId_succ.
  - intros uid. reflexivity.
Qed.

(** ** C4: buying raffle tickets *)

Section BuyTickets.
Import Raffle.



End BuyTickets.


(** ** C6: the burn ledgers *)

Section BurnLedgers.
Import Burn.

Lemma gtb_zero_nonneg (x : Q) : 0 <= x → ¬ x == 0 → Js.gtb x 0 = true.
Proof.
  intros Hle Hne. apply gtb_true.
  apply Qle_lteq in Hle as [Hlt|Heq]; [done|].
  exfalso. apply Hne. by symmetry.
Qed.

Lemma gtb_zero_eq (x : Q) : x == 0 → Js.gtb x 0 = false.
Proof. intros Hx. apply gtb_false. rewrite Hx. apply Qle_refl. Qed.

(** A counter that reads non-zero comes from a document. *)
Lemma orZero_nonzero_Some {A} (doc : option A) (f : A → option Q) :
  ¬ Js.orZero (doc ≫= f) == 0 → is_Some doc.
Proof.
  intros Hne. destruct doc; [by eexists|]. exfalso. by apply Hne.
Qed.

End BurnLedgers.

(** C6. On a ledger whose readyToBurn (a non-negative amount) is 0, burning
    reports NothingToBurn and leaves both counters, and everything else, as
    they were; otherwise it adds the whole readyToBurn to totalBurnt and
    sets readyToBurn to 0.  This holds for the holder's ledger
    ([handleBurnEDinosur]) and for the global ledger ([handleBurnDinosur])
    alike, and a burn on either leaves the other ledger's document
    untouched. *)
Theorem C6_burnAll (s : Burn.Store) :
  let userReady := fst (Burn.userLedger s) in
  let userTotal := snd (Burn.userLedger s) in
  let globalReady := fst (Burn.globalLedger s) in
  let globalTotal := snd (Burn.globalLedger s) in
  (userReady == 0 → Burn.handleBurnEDinosur s = (NothingToBurn, s)) ∧
  (0 <= userReady → ¬ userReady == 0 →
     ∃ s', Burn.handleBurnEDinosur s
             = (Burnt userReady (userTotal + userReady), s') ∧
           Burn.userLedger s' = (0, userTotal + userReady) ∧
           Burn.globalStats s' = Burn.globalStats s ∧
           Burn.staking s' ≫= Staking.earned
             = Burn.staking s ≫= Staking.earned ∧
           Burn.staking s' ≫= Staking.nfts
             = Burn.staking s ≫= Staking.nfts) ∧
  (globalReady == 0 → Burn.handleBurnDinosur s = (NothingToBurn, s)) ∧
  (0 <= globalReady → ¬ globalReady == 0 →
     ∃ s', Burn.handleBurnDinosur s
             = (Burnt globalReady (globalTotal + globalReady), s') ∧
           Burn.globalLedger s' = (0, globalTotal + globalReady) ∧
           Burn.staking s' = Burn.staking s).
Proof.
  intros userReady userTotal globalReady globalTotal.
  split; [|split; [|split]].
  - intros Hz. unfold Burn.handleBurnEDinosur.
    change (Js.orZero (Burn.staking s ≫= Staking.readyToBurnEDinosur))
      with userReady.
    by rewrite (gtb_zero_eq _ Hz).
  - intros Hle Hne. unfold Burn.handleBurnEDinosur.
    change (Js.orZero (Burn.staking s ≫= Staking.readyToBurnEDinosur))
      with userReady.
    change (Js.orZero (Burn.staking s ≫= Staking.totalBurntEDinosur))
      with userTotal.
    rewrite (gtb_zero_nonneg _ Hle Hne).
    destruct (orZero_nonzero_Some (Burn.staking s) _ Hne) as [d Hd].
    rewrite Hd. eexists. split; [reflexivity|]. done.
  - intros Hz. unfold Burn.handleBurnDinosur.
    change (Js.orZero (Burn.globalStats s ≫= Burn.readyToBurnDinosur))
      with globalReady.
    by rewrite (gtb_zero_eq _ Hz).
  - intros Hle Hne. unfold Burn.handleBurnDinosur.
    change (Js.orZero (Burn.globalStats s ≫= Burn.readyToBurnDinosur))
      with globalReady.
    change (Js.orZero (Burn.globalStats s ≫= Burn.totalBurntDinosur))
      with globalTotal.
    rewrite (gtb_zero_nonneg _ Hle Hne).
    destruct (orZero_nonzero_Some (Burn.globalStats s) _ Hne) as [d Hd].
    rewrite Hd. eexists. split; [reflexivity|]. done.
Qed.

(** ** The sale in exact arithmetic *)

Section SaleBuy.
Import Sale.

Lemma price_zero : price 0 = initialPrice.
Proof. reflexivity. Qed.

Lemma priceInv_init uid now : priceInv (init uid now).
Proof. reflexivity. Qed.

Lemma handleBuy_view (st : State) :
  let st' := snd (handleBuy st) in
  userId st' = userId st ∧ saleStartTime st' = saleStartTime st ∧
  saleStarted st' = saleStarted st ∧ currentEpoch st' = currentEpoch st ∧
  currentPrice st' = currentPrice st.
Proof.
  unfold handleBuy.
  destruct (userId st) eqn:Hu; [|done].
  destruct (saleStarted st) eqn:Hs; simpl; [|done].
  destruct (buyAmount st) as [a|]; [|done].
  destruct (Qle_bool a 0); [done|].
  destruct (Js.gtb _ 1000); [done|].
  destruct (Js.gtb _ MAX_EPOCH_PURCHASE_USD); simpl; by rewrite ?Hs.
Qed.

Lemma priceInv_step (st : State) (e : Event) :
  priceInv st → priceInv (step st e).
Proof.
  unfold priceInv. intros Hinv. destruct e as [now|a|]; simpl.
  - unfold tick. destruct (_ <? 0)%Z; [reflexivity | exact Hinv].
  - done.
  - destruct (handleBuy_view st) as (_ & _ & _ & -> & ->). done.
Qed.

Lemma priceInv_run (es : list Event) (st : State) :
  priceInv st → priceInv (run es st).
Proof.
  unfold run. revert st. induction es as [|e es IH]; intros st Hinv;
    [done|].
  simpl. apply IH. by apply priceInv_step.
Qed.

End SaleBuy.


Section Epochs.
Import Sale.

Lemma epochMs_val : epochMs = 604800000%Z.
Proof. reflexivity. Qed.

Lemma tick_live (now : Z) (st : State) :
  (saleStartTime st < now)%Z →
  saleStarted (tick now st) = true ∧
  currentEpoch (tick now st) = epochIndex (saleStartTime st) now ∧
  currentPrice (tick now st) = price (epochIndex (saleStartTime st) now).
Proof.
  intros Hlt. unfold tick.
  destruct (Z.ltb_spec (saleStartTime st - now) 0); [done|lia].
Qed.

Lemma tick_pending (now : Z) (st : State) :
  (now <= saleStartTime st)%Z →
  saleStarted (tick now st) = false ∧
  currentEpoch (tick now st) = currentEpoch st ∧
  currentPrice (tick now st) = currentPrice st ∧
  userPurchasedUSDInCurrentEpoch (tick now st)
    = userPurchasedUSDInCurrentEpoch st ∧
  lastPurchaseEpoch (tick now st) = lastPurchaseEpoch st.
Proof.
  intros Hle. unfold tick.
  destruct (Z.ltb_spec (saleStartTime st - now) 0); [lia|done].
Qed.

Lemma tick_saleStartTime (now : Z) (st : State) :
  saleStartTime (tick now st) = saleStartTime st.
Proof. unfold tick. by destruct (_ <? 0)%Z. Qed.

Lemma tick_userId (now : Z) (st : State) :
  userId (tick now st) = userId st.
Proof. unfold tick. by destruct (_ <? 0)%Z. Qed.

Lemma epochInv_init uid now :
  epochInv (saleStartTime (init uid now)) now (init uid now).
Proof.
  split; [done|]. simpl.
  destruct (Z.leb_spec now (now + 45 * 24 * 60 * 60 * 1000)); [done|lia].
Qed.

Lemma epochInv_tick (T0 t now : Z) (st : State) :
  epochInv T0 t st → (t <= now)%Z → epochInv T0 now (tick now st).
Proof.
  intros [HT He] Hmono. split; [by rewrite tick_saleStartTime|].
  destruct (Z.leb_spec now T0) as [Hle|Hgt].
  - destruct (tick_pending now st) as (_ & -> & _); [lia|].
    rewrite He. destruct (Z.leb_spec t T0); [done|lia].
  - destruct (tick_live now st) as (_ & -> & _); [lia|]. by rewrite HT.
Qed.

Lemma epochInv_run (T0 : Z) (es : list Event) (t : Z) (st : State) :
  epochInv T0 t st → monotoneFrom t es = true →
  epochInv T0 (lastTime t es) (run es st).
Proof.
  unfold run, lastTime. revert t st.
  induction es as [|e es IH]; intros t st Hinv Hmono; [done|].
  destruct e as [now|a|]; simpl in *.
  - apply andb_prop in Hmono as [Hle Hmono]. apply Z.leb_le in Hle.
    apply IH; [|done]. by apply (epochInv_tick T0 t).
  - apply IH; [|done]. done.
  - apply IH; [|done]. destruct Hinv as [HT He].
    destruct (handleBuy_view st) as (_ & HT' & _ & He' & _).
    split; [by rewrite HT'|by rewrite He'].
Qed.

Lemma monotoneFrom_app (es1 es2 : list Event) (t : Z) :
  monotoneFrom t (es1 ++ es2)
  = monotoneFrom t es1 && monotoneFrom (lastTime t es1) es2.
Proof.
  unfold lastTime. revert t.
  induction es1 as [|e es1 IH]; intros t; [done|].
  destruct e as [now|a|]; simpl; rewrite IH; [|done|done].
  by rewrite andb_assoc.
Qed.

Lemma epochIndex_start (T0 : Z) : epochIndex T0 T0 = 0%Z.
Proof. unfold epochIndex, Js.floorDiv. by rewrite Z.sub_diag. Qed.

Lemma epochIndex_mono (T0 t1 t2 : Z) :
  (t1 <= t2)%Z → (epochIndex T0 t1 <= epochIndex T0 t2)%Z.
Proof.
  intros Hle. unfold epochIndex, Js.floorDiv.
  apply Z.div_le_mono; [by rewrite epochMs_val|lia].
Qed.

Lemma price_mono (e1 e2 : Z) : (e1 <= e2)%Z → price e1 <= price e2.
Proof.
  intros Hle. unfold price, Js.pow.
  apply Qmult_le_l; [reflexivity|].
  apply Qpower_le_compat_l; [done|]. unfold priceIncreaseFactor.
  unfold Qle. simpl. lia.
Qed.

End Epochs.


(** ** The sale over doubles *)

Section Doubles.

(** Adding to zero does not change how a double compares. *)
Lemma gt_zero_add (c k : float) :
  Double.gt (0 + c)%float k = Double.gt c k.
Proof.
  unfold Double.gt. rewrite !ltb_spec, add_spec.
  change (Prim2SF 0) with (S754_zero false).
  destruct (Prim2SF c) as [s|s| |s m e];
    destruct (Prim2SF k) as [s'|s'| |s' m' e'];
    try reflexivity; destruct s; reflexivity.
Qed.


End Doubles.

Section SaleDoubleBuy.
Import SaleDouble.
Variable Math_pow : float → Z → float.

Lemma dbl_handleBuy_view (st : State) :
  let st' := snd (handleBuy st) in
  userId st' = userId st ∧ saleStartTime st' = saleStartTime st ∧
  saleStarted st' = saleStarted st ∧ currentEpoch st' = currentEpoch st ∧
  currentPrice st' = currentPrice st.
Proof.
  unfold handleBuy.
  destruct (userId st) eqn:Hu; [|done].
  destruct (saleStarted st) eqn:Hs; simpl; [|done].
  destruct (Double.isNaN _ || Double.le _ 0); [done|].
  destruct (Double.gt _ 1000); [done|].
  destruct (Double.gt _ MAX_EPOCH_PURCHASE_USD); simpl; by rewrite ?Hs.
Qed.

(** The outcomes of [handleBuy] on a live sale, by the order of its
    checks. *)
Lemma dbl_handleBuy_cases (st : State) :
  is_Some (userId st) → saleStarted st = true →
  let a := buyAmount st in
  let cost := (a * currentPrice st)%float in
  (Double.isNaN a = true → handleBuy st = (InvalidAmount, st)) ∧
  (Double.le a 0 = true → handleBuy st = (InvalidAmount, st)) ∧
  (Double.isNaN a = false → Double.le a 0 = false →
     (Double.gt (userPurchasedUSD st + cost)%float 1000 = true →
        handleBuy st = (WalletCapExceeded, st)) ∧
     (Double.gt (userPurchasedUSD st + cost)%float 1000 = false →
      Double.gt (userPurchasedUSDInCurrentEpoch st + cost)%float 250 = true →
        handleBuy st = (EpochCapExceeded, st)) ∧
     (Double.gt (userPurchasedUSD st + cost)%float 1000 = false →
      Double.gt (userPurchasedUSDInCurrentEpoch st + cost)%float 250
        = false →
        ∃ st', handleBuy st
                 = (Purchased a (userPurchasedUSD st + cost)%float
                      (userPurchasedUSDInCurrentEpoch st + cost)%float,
                    st') ∧
               userPurchasedUSD st' = (userPurchasedUSD st + cost)%float ∧
               userPurchasedUSDInCurrentEpoch st'
                 = (userPurchasedUSDInCurrentEpoch st + cost)%float ∧
               lastPurchaseEpoch st' = currentEpoch st ∧
               currentEpoch st' = currentEpoch st ∧
               saleStarted st' = true)).
Proof.
  intros [uid Huid] Hs a cost. unfold handleBuy.
  rewrite Huid, Hs. simpl. fold a. fold cost.
  unfold MAX_EPOCH_PURCHASE_USD.
  split; [|split; [|intros Hn Hle; split; [|split]]].
  - by intros ->.
  - intros ->. by rewrite orb_true_r.
  - intros Hw. by rewrite Hn, Hle, Hw.
  - intros Hw He. by rewrite Hn, Hle, Hw, He.
  - intros Hw He. rewrite Hn, Hle, Hw, He. simpl.
    eexists. split; [reflexivity|]. done.
Qed.




Lemma dbl_tick_live (now : Z) (st : State) :
  (saleStartTime st < now)%Z →
  saleStarted (tick Math_pow now st) = true ∧
  currentEpoch (tick Math_pow now st)
    = Sale.epochIndex (saleStartTime st) now ∧
  currentPrice (tick Math_pow now st)
    = price Math_pow (Sale.epochIndex (saleStartTime st) now) ∧
  userPurchasedUSD (tick Math_pow now st) = userPurchasedUSD st.
Proof.
  intros Hlt. unfold tick.
  destruct (Z.ltb_spec (saleStartTime st - now) 0); [done|lia].
Qed.

Lemma dbl_tick_pending (now : Z) (st : State) :
  (now <= saleStartTime st)%Z →
  saleStarted (tick Math_pow now st) = false ∧
  currentEpoch (tick Math_pow now st) = currentEpoch st ∧
  currentPrice (tick Math_pow now st) = currentPrice st ∧
  userPurchasedUSDInCurrentEpoch (tick Math_pow now st)
    = userPurchasedUSDInCurrentEpoch st ∧
  lastPurchaseEpoch (tick Math_pow now st) = lastPurchaseEpoch st.
Proof.
  intros Hle. unfold tick.
  destruct (Z.ltb_spec (saleStartTime st - now) 0); [lia|done].
Qed.

Lemma dbl_tick_saleStartTime (now : Z) (st : State) :
  saleStartTime (tick Math_pow now st) = saleStartTime st.
Proof. unfold tick. by destruct (_ <? 0)%Z. Qed.

Lemma dbl_tick_userId (now : Z) (st : State) :
  userId (tick Math_pow now st) = userId st.
Proof. unfold tick. by destruct (_ <? 0)%Z. Qed.




Lemma dbl_tick_changed (now : Z) (st : State) :
  is_Some (userId st) → (saleStartTime st < now)%Z →
  Sale.epochIndex (saleStartTime st) now ≠ lastPurchaseEpoch st →
  resets now st = true ∧
  userPurchasedUSDInCurrentEpoch (tick Math_pow now st) = 0%float ∧
  lastPurchaseEpoch (tick Math_pow now st)
    = Sale.epochIndex (saleStartTime st) now.
Proof.
  intros Hu Hlt Hne. unfold resets, tick.
  destruct (Z.ltb_spec (saleStartTime st - now) 0); [|lia].
  destruct (Z.eqb_spec (Sale.epochIndex (saleStartTime st) now)
              (lastPurchaseEpoch st)); [done|].
  simpl. by rewrite bool_decide_eq_true_2.
Qed.

Lemma dbl_tick_same (now : Z) (st : State) :
  (saleStartTime st < now)%Z →
  Sale.epochIndex (saleStartTime st) now = lastPurchaseEpoch st →
  resets now st = false ∧
  userPurchasedUSDInCurrentEpoch (tick Math_pow now st)
    = userPurchasedUSDInCurrentEpoch st ∧
  userPurchasedUSD (tick Math_pow now st) = userPurchasedUSD st ∧
  lastPurchaseEpoch (tick Math_pow now st) = lastPurchaseEpoch st.
Proof.
  intros Hlt He. unfold resets, tick.
  destruct (Z.ltb_spec (saleStartTime st - now) 0); [|lia].
  destruct (Z.eqb_spec (Sale.epochIndex (saleStartTime st) now)
              (lastPurchaseEpoch st)); done.
Qed.

Lemma dbl_handleBuy_recorded (st : State) :
  lastPurchaseEpoch (snd (handleBuy st)) = lastPurchaseEpoch st ∨
  lastPurchaseEpoch (snd (handleBuy st)) = currentEpoch st.
Proof.
  unfold handleBuy.
  destruct (userId st); [|by left].
  destruct (saleStarted st); simpl; [|by left].
  destruct (Double.isNaN _ || Double.le _ 0); [by left|].
  destruct (Double.gt _ 1000); [by left|].
  destruct (Double.gt _ MAX_EPOCH_PURCHASE_USD); [by left|by right].
Qed.

Lemma dbl_syncedAt_tick (T0 e now : Z) (st : State) :
  is_Some (userId st) → saleStartTime st = T0 → (T0 < now)%Z →
  Sale.epochIndex T0 now = e → syncedAt T0 e (tick Math_pow now st).
Proof.
  intros Hu HT Hlt He. subst T0.
  destruct (dbl_tick_live now st Hlt) as (Hs & Hc & _).
  repeat split; [by rewrite dbl_tick_userId
                |by rewrite dbl_tick_saleStartTime
                |done|by rewrite Hc|].
  destruct (decide (Sale.epochIndex (saleStartTime st) now
                    = lastPurchaseEpoch st)) as [Heq|Hne].
  - destruct (dbl_tick_same now st Hlt Heq) as (_ & _ & _ & ->). congruence.
  - destruct (dbl_tick_changed now st Hu Hlt Hne) as (_ & _ & ->). done.
Qed.

Lemma dbl_syncedAt_step (T0 e : Z) (st : State) (ev : Event) :
  syncedAt T0 e st → inEpoch T0 e ev →
  syncedAt T0 e (step Math_pow st ev).
Proof.
  intros (Hu & HT & Hs & Hc & Hl) Hev. destruct ev as [now|a|]; simpl.
  - destruct Hev as [Hlt He]. by apply dbl_syncedAt_tick.
  - done.
  - destruct (dbl_handleBuy_view st) as (Hu' & HT' & Hs' & Hc' & _).
    repeat split; [by rewrite Hu'|by rewrite HT'|by rewrite Hs'
                  |by rewrite Hc'|].
    destruct (dbl_handleBuy_recorded st) as [->| ->]; done.
Qed.

Lemma dbl_syncedAt_run (T0 e : Z) (es : list Event) (st : State) :
  syncedAt T0 e st → Forall (inEpoch T0 e) es →
  syncedAt T0 e (run Math_pow es st).
Proof.
  unfold run. revert st.
  induction es as [|ev es IH]; intros st Hst Hes; [done|].
  apply Forall_cons in Hes as [Hev Hes]. simpl.
  apply IH; [|done]. by apply dbl_syncedAt_step.
Qed.

(** Whenever the sale is live for a connected wallet, the recorded epoch
    is the epoch on display. *)
Lemma dbl_recorded_step (st : State) (ev : Event) :
  is_Some (userId st) →
  (saleStarted st = true → lastPurchaseEpoch st = currentEpoch st) →
  is_Some (userId (step Math_pow st ev)) ∧
  (saleStarted (step Math_pow st ev) = true →
   lastPurchaseEpoch (step Math_pow st ev)
     = currentEpoch (step Math_pow st ev)).
Proof.
  intros Hu Hinv. destruct ev as [now|a|]; simpl.
  - split; [by rewrite dbl_tick_userId|].
    destruct (Z.lt_ge_cases (saleStartTime st) now) as [Hlt|Hge].
    + intros _.
      destruct (dbl_syncedAt_tick (saleStartTime st) _ now st Hu eq_refl
                  Hlt eq_refl) as (_ & _ & _ & -> & ->). done.
    + destruct (dbl_tick_pending now st Hge) as (-> & _). done.
  - done.
  - destruct (dbl_handleBuy_view st) as (-> & _ & -> & -> & _).
    split; [done|]. intros Hs.
    destruct (dbl_handleBuy_recorded st) as [->| ->]; auto.
Qed.

Lemma dbl_recorded_run (es : list Event) (st : State) :
  is_Some (userId st) →
  (saleStarted st = true → lastPurchaseEpoch st = currentEpoch st) →
  saleStarted (run Math_pow es st) = true →
  lastPurchaseEpoch (run Math_pow es st)
    = currentEpoch (run Math_pow es st).
Proof.
  unfold run. revert st.
  induction es as [|ev es IH]; intros st Hu Hinv; [done|].
  simpl. destruct (dbl_recorded_step st ev Hu Hinv) as [Hu' Hinv'].
  by apply IH.
Qed.

End SaleDoubleBuy.

(** ** C2: buying in the sale *)

(** C2. For a connected wallet holding the price of its epoch,
    [handleBuy] reports SaleNotLive while the sale is pending; once live
    it reports InvalidAmount for an amount that is not a number or is
    [<= 0].  Otherwise [cost] is the double product [tokenAmount *
    price(currentEpoch)]: it reports WalletCapExceeded when the double sum
    of the lifetime spending and [cost] is greater than 1000, and
    otherwise EpochCapExceeded when the double sum of the spending of the
    epoch and [cost] is greater than 250; every failure returns the state
    it was given.  Otherwise the purchase succeeds: both counters become
    those double sums and the recorded epoch becomes the current one. *)
Theorem C2_buy (Math_pow : float → Z → float) (st : SaleDouble.State)
    (uid : string) :
  SaleDouble.userId st = Some uid →
  SaleDouble.currentPrice st
    = SaleDouble.price Math_pow (SaleDouble.currentEpoch st) →
  let lifetimeUsdSpent := SaleDouble.userPurchasedUSD st in
  let epochUsdSpent := SaleDouble.userPurchasedUSDInCurrentEpoch st in
  let tokenAmount := SaleDouble.buyAmount st in
  let cost :=
    (tokenAmount
     * SaleDouble.price Math_pow (SaleDouble.currentEpoch st))%float in
  (SaleDouble.saleStarted st = false →
     SaleDouble.handleBuy st = (SaleDouble.SaleNotLive, st)) ∧
  (SaleDouble.saleStarted st = true →
     (Double.isNaN tokenAmount = true →
        SaleDouble.handleBuy st = (SaleDouble.InvalidAmount, st)) ∧
     (Double.le tokenAmount 0 = true →
        SaleDouble.handleBuy st = (SaleDouble.InvalidAmount, st)) ∧
     (Double.isNaN tokenAmount = false → Double.le tokenAmount 0 = false →
        (Double.gt (lifetimeUsdSpent + cost)%float 1000 = true →
           SaleDouble.handleBuy st = (SaleDouble.WalletCapExceeded, st)) ∧
        (Double.gt (lifetimeUsdSpent + cost)%float 1000 = false →
         Double.gt (epochUsdSpent + cost)%float 250 = true →
           SaleDouble.handleBuy st = (SaleDouble.EpochCapExceeded, st)) ∧
        (Double.gt (lifetimeUsdSpent + cost)%float 1000 = false →
         Double.gt (epochUsdSpent + cost)%float 250 = false →
           ∃ st', SaleDouble.handleBuy st
                    = (SaleDouble.Purchased tokenAmount
                         (lifetimeUsdSpent + cost)%float
                         (epochUsdSpent + cost)%float, st') ∧
                  SaleDouble.userPurchasedUSD st'
                    = (lifetimeUsdSpent + cost)%float ∧
                  SaleDouble.userPurchasedUSDInCurrentEpoch st'
                    = (epochUsdSpent + cost)%float ∧
                  SaleDouble.lastPurchaseEpoch st'
                    = SaleDouble.currentEpoch st ∧
                  SaleDouble.currentEpoch st' = SaleDouble.currentEpoch st ∧
                  SaleDouble.saleStarted st' = true))).
Proof.
  intros Huid Hprice lifetimeUsdSpent epochUsdSpent tokenAmount cost. split.
  - intros Hs. unfold SaleDouble.handleBuy. by rewrite Huid, Hs.
  - intros Hs. unfold cost. rewrite <- Hprice.
    apply dbl_handleBuy_cases; [by eexists|done].
Qed.

(** ** C8: epochs and prices over time *)


(** ** C7: the reset of the epoch counter *)

(** C7. For a connected wallet, a tick at a live clock [now] observes
    epoch [e].  If [e] differs from the recorded epoch, that same tick
    zeroes the epoch counter and records [e]; if it does not differ, the
    counter is kept.  After the tick the recorded epoch is [e], so no later
    tick in epoch [e] zeroes the counter again, whatever purchases and
    inputs come in between: the reset happens once per transition.  In
    every state reached afterwards in which the sale is live, the recorded
    epoch is the epoch on display, so each purchase is checked against a
    counter that was zeroed when its epoch was first observed.  After a
    transition, a purchase whose cost, the double product of the amount
    and the price held, is not greater than 250 succeeds when the wallet
    cap allows it, whatever the counter was before. *)
Theorem C7_epoch_reset (Math_pow : float → Z → float)
    (st : SaleDouble.State) (uid : string) (now : Z) :
  SaleDouble.userId st = Some uid →
  (SaleDouble.saleStartTime st < now)%Z →
  let T0 := SaleDouble.saleStartTime st in
  let e := Sale.epochIndex T0 now in
  let st1 := SaleDouble.tick Math_pow now st in
  (SaleDouble.saleStarted st1 = true ∧ SaleDouble.currentEpoch st1 = e ∧
   SaleDouble.lastPurchaseEpoch st1 = e) ∧
  (e ≠ SaleDouble.lastPurchaseEpoch st →
     SaleDouble.resets now st = true ∧
     SaleDouble.userPurchasedUSDInCurrentEpoch st1 = 0%float) ∧
  (e = SaleDouble.lastPurchaseEpoch st →
     SaleDouble.resets now st = false ∧
     SaleDouble.userPurchasedUSDInCurrentEpoch st1
       = SaleDouble.userPurchasedUSDInCurrentEpoch st) ∧
  (∀ (es : list SaleDouble.Event) (now' : Z),
     Forall (SaleDouble.inEpoch T0 e) es →
     (T0 < now')%Z → Sale.epochIndex T0 now' = e →
     SaleDouble.resets now' (SaleDouble.run Math_pow es st1) = false ∧
     SaleDouble.userPurchasedUSDInCurrentEpoch
       (SaleDouble.tick Math_pow now' (SaleDouble.run Math_pow es st1))
       = SaleDouble.userPurchasedUSDInCurrentEpoch
           (SaleDouble.run Math_pow es st1)) ∧
  (∀ es : list SaleDouble.Event,
     SaleDouble.saleStarted (SaleDouble.run Math_pow es st1) = true →
     SaleDouble.lastPurchaseEpoch (SaleDouble.run Math_pow es st1)
       = SaleDouble.currentEpoch (SaleDouble.run Math_pow es st1)) ∧
  (e ≠ SaleDouble.lastPurchaseEpoch st →
   ∀ tokenAmount : float,
     let cost := (tokenAmount * SaleDouble.price Math_pow e)%float in
     Double.isNaN tokenAmount = false → Double.le tokenAmount 0 = false →
     Double.gt cost 250 = false →
     Double.gt (SaleDouble.userPurchasedUSD st + cost)%float 1000 = false →
     ∃ st',
       SaleDouble.handleBuy (SaleDouble.setBuyAmount tokenAmount st1)
         = (SaleDouble.Purchased tokenAmount
              (SaleDouble.userPurchasedUSD st + cost)%float
              (0 + cost)%float, st') ∧
       SaleDouble.userPurchasedUSDInCurrentEpoch st' = (0 + cost)%float ∧
       SaleDouble.lastPurchaseEpoch st' = e).
Proof.
  intros Hu Hlt T0 e st1.
  assert (is_Some (SaleDouble.userId st)) as Hsome by (by eexists).
  assert (SaleDouble.syncedAt T0 e st1) as Hsync
    by (by apply dbl_syncedAt_tick).
  pose proof Hsync as (Hu1 & HT1 & Hs1 & Hc1 & Hl1).
  split; [done|]. split; [|split; [|split; [|split]]].
  - intros Hne.
    destruct (dbl_tick_changed Math_pow now st Hsome Hlt Hne)
      as (Hr & H0 & _). done.
  - intros Heq.
    destruct (dbl_tick_same Math_pow now st Hlt Heq) as (Hr & Hk & _). done.
  - intros es now' Hes Hlt' He'.
    destruct (dbl_syncedAt_run Math_pow T0 e es st1 Hsync Hes)
      as (_ & HT2 & _ & _ & Hl2).
    destruct (dbl_tick_same Math_pow now' (SaleDouble.run Math_pow es st1))
      as (Hr & Hk & _); [by rewrite HT2|by rewrite HT2, Hl2|]. done.
  - intros es. apply dbl_recorded_run; [done|]. intros _.
    by rewrite Hc1, Hl1.
  - intros Hne a cost Hn Hpos Hcost Hwallet.
    destruct (dbl_tick_changed Math_pow now st Hsome Hlt Hne)
      as (_ & H0 & _).
    destruct (dbl_tick_live Math_pow now st Hlt) as (_ & _ & Hp & Htot).
    destruct (dbl_handleBuy_cases (SaleDouble.setBuyAmount a st1))
      as (_ & _ & Hok); [done|done|].
    simpl in Hok. fold st1 in H0, Hp, Htot. fold T0 e in Hp.
    rewrite Hp, H0, Htot, Hc1 in Hok.
    destruct (Hok Hn Hpos) as (_ & _ & Hbuy).
    destruct Hbuy as (st' & Hbuy & _ & Hk' & Hl' & _); [done|..].
    + by rewrite gt_zero_add.
    + exists st'. done.
Qed.


(** ** C9, C10: the raffle spin *)

Section Spin.
Import Raffle.

Lemma spinTicks_S_last (n : nat) (random : nat → nat → Q) (st : State) :
  spinTicks (S n) random st
  = snd (spinTick (random n) (spinTicks n random st)).
Proof.
  revert random st. induction n as [|n IH]; intros random st; [done|].
  change (spinTicks (S (S n)) random st)
    with (spinTicks (S n) (λ i, random (S i))
            (snd (spinTick (random 0%nat) st))).
  by rewrite IH.
Qed.

(** While the timer has not reached [spinDuration] the callback only
    moves the reels. *)
Lemma spinTick_moving (random : nat → Q) (st : State) (c t : Z) :
  intervalId st = Some {| capturedTicketCount := c; spinTimer := t |} →
  (t + 100 < 2000)%Z →
  let st' := snd (spinTick random st) in
  fst (spinTick random st) = None ∧
  intervalId st'
    = Some {| capturedTicketCount := c; spinTimer := t + 100 |} ∧
  isSpinning st' = isSpinning st ∧ ticketCount st' = ticketCount st.
Proof.
  intros Hid Hlt. unfold spinTick. rewrite Hid. simpl.
  unfold spinDuration, spinInterval.
  destruct (Z.leb_spec 2000 (t + 100)); [lia|done].
Qed.

Lemma spinTicks_moving (k : nat) (random : nat → nat → Q) (st : State)
    (c t : Z) :
  intervalId st = Some {| capturedTicketCount := c; spinTimer := t |} →
  (t + 100 * Z.of_nat k < 2000)%Z →
  let st' := spinTicks k random st in
  intervalId st'
    = Some {| capturedTicketCount := c;
              spinTimer := t + 100 * Z.of_nat k |} ∧
  isSpinning st' = isSpinning st ∧ ticketCount st' = ticketCount st.
Proof.
  revert random st t. induction k as [|k IH]; intros random st t Hid Hlt.
  - simpl. rewrite Z.add_0_r. done.
  - destruct (spinTick_moving (random 0%nat) st c t Hid)
      as (_ & Hid' & Hs' & Hc'); [lia|].
    destruct (IH (λ i, random (S i)) _ (t + 100)%Z Hid')
      as (Hid'' & Hs'' & Hc''); [lia|].
    simpl spinTicks. cbv zeta. rewrite Hid'', Hs'', Hc''.
    repeat split; [|done|done]. do 2 f_equal. lia.
Qed.

(** The run in which the timer reaches [spinDuration] ends the spin. *)
Lemma spinTick_final (random : nat → Q) (st : State) (c t : Z) :
  intervalId st = Some {| capturedTicketCount := c; spinTimer := t |} →
  (2000 <= t + 100)%Z →
  let finalReel1 := pick (random 3%nat) in
  let finalReel2 := pick (random 4%nat) in
  let finalReel3 := pick (random 5%nat) in
  let st' := snd (spinTick random st) in
  fst (spinTick random st)
    = Some (SpinResult (classify finalReel1 finalReel2 finalReel3)) ∧
  ticketCount st' = (c - 1)%Z ∧ isSpinning st' = false ∧
  intervalId st' = None ∧
  reel1 st' = finalReel1 ∧ reel2 st' = finalReel2 ∧
  reel3 st' = finalReel3.
Proof.
  intros Hid Hge. unfold spinTick. rewrite Hid. simpl.
  unfold spinDuration, spinInterval.
  destruct (Z.leb_spec 2000 (t + 100)); [done|lia].
Qed.

Lemma classify_spec (a b c : option string) :
  (a = b ∧ b = c → classify a b c = Jackpot) ∧
  (¬ (a = b ∧ b = c) → a = b ∨ b = c ∨ a = c →
     classify a b c = PartialMatch) ∧
  (a ≠ b → b ≠ c → a ≠ c → classify a b c = NoWin).
Proof.
  unfold classify. repeat split.
  - intros [-> ->]. by rewrite !bool_decide_eq_true_2.
  - intros Hnot Hpair.
    destruct (decide (a = b)) as [Hab|Hab].
    + rewrite (bool_decide_eq_true_2 _ Hab).
      destruct (decide (b = c)) as [Hbc|Hbc]; [exfalso; by apply Hnot|].
      by rewrite (bool_decide_eq_false_2 _ Hbc).
    + rewrite (bool_decide_eq_false_2 _ Hab). simpl.
      destruct Hpair as [Heq|[Hbc|Hac]]; [done| |].
      * by rewrite (bool_decide_eq_true_2 _ Hbc).
      * rewrite (bool_decide_eq_true_2 _ Hac). by rewrite orb_true_r.
  - intros Hab Hbc Hac.
    by rewrite (bool_decide_eq_false_2 _ Hab),
      (bool_decide_eq_false_2 _ Hbc), (bool_decide_eq_false_2 _ Hac).
Qed.

Lemma Qfloor_eq_iff (x : Q) (k : Z) :
  Qfloor x = k ↔ inject_Z k <= x ∧ x < inject_Z (k + 1).
Proof.
  split.
  - intros <-. split; [apply Qfloor_le|apply Qlt_floor].
  - intros [Hle Hlt].
    apply Qfloor_resp_le in Hle. rewrite Qfloor_Z in Hle.
    pose proof (Qle_lt_trans _ _ _ (Qfloor_le x) Hlt) as Hlt'.
    rewrite <- Zlt_Qlt in Hlt'. lia.
Qed.

(** Each symbol position is hit by an interval of [Math.random()]
    values of the same length, one sixth. *)
Lemma reelIndex_interval (u : Q) (k : Z) :
  reelIndex u = k ↔ inject_Z k / 6 <= u ∧ u < inject_Z (k + 1) / 6.
Proof.
  unfold reelIndex. rewrite Qfloor_eq_iff.
  change (inject_Z (Z.of_nat (length symbols))) with 6.
  assert (0 < 6) as H6 by reflexivity.
  rewrite <- (Qmult_le_r (inject_Z k / 6) u 6 H6).
  rewrite <- (Qmult_lt_r u (inject_Z (k + 1) / 6) 6 H6).
  assert (∀ a, a / 6 * 6 == a) as Hdiv by (intros a; field).
  by rewrite !Hdiv.
Qed.

Lemma reelIndex_range (u : Q) :
  0 <= u → u < 1 → (0 <= reelIndex u < 6)%Z.
Proof.
  intros H0 H1. unfold reelIndex.
  change (inject_Z (Z.of_nat (length symbols))) with 6.
  split.
  - change 0%Z with (Qfloor 0). apply Qfloor_resp_le.
    apply Qmult_le_0_compat; [done|discriminate].
  - assert (u * 6 < 6) as Hlt.
    { change 6 with (1 * 6) at 2. by apply Qmult_lt_r. }
    pose proof (Qle_lt_trans _ _ _ (Qfloor_le (u * 6)) Hlt) as Hlt'.
    change 6 with (inject_Z 6) in Hlt' at 2.
    by rewrite <- Zlt_Qlt in Hlt'.
Qed.

Lemma pick_in_range (u : Q) :
  0 <= u → u < 1 →
  pick u = symbols !! Z.to_nat (reelIndex u) ∧ is_Some (pick u).
Proof.
  intros H0 H1. destruct (reelIndex_range u H0 H1) as [Hlo Hhi].
  unfold pick. destruct (Z.ltb_spec (reelIndex u) 0); [lia|].
  split; [done|]. apply lookup_lt_is_Some. simpl. lia.
Qed.

(** Every entry of [symbols] is the empty string. *)
Lemma pick_empty (u : Q) : 0 <= u → u < 1 → pick u = Some EmptyString.
Proof.
  intros H0 H1. destruct (pick_in_range u H0 H1) as [-> [s Hs]].
  rewrite Hs. f_equal.
  apply list_elem_of_lookup_2 in Hs. unfold symbols in Hs.
  repeat (apply elem_of_cons in Hs as [->|Hs]; [done|]).
  by apply elem_of_nil in Hs.
Qed.

Lemma handleSpin_busy (st : State) :
  isSpinning st = true → handleSpin st = (AlreadySpinning, st).
Proof. intros Hs. unfold handleSpin. by rewrite Hs. Qed.

Lemma handleSpin_start (st : State) :
  isSpinning st = false → (0 < ticketCount st)%Z →
  ∃ st1, handleSpin st = (SpinStarted, st1) ∧
         intervalId st1
           = Some {| capturedTicketCount := ticketCount st;
                     spinTimer := 0 |} ∧
         isSpinning st1 = true ∧ ticketCount st1 = ticketCount st.
Proof.
  intros Hs Hpos. unfold handleSpin. rewrite Hs.
  destruct (Z.ltb_spec 0 (ticketCount st)); [|lia].
  eexists. split; [reflexivity|]. done.
Qed.

(** The count written when a spin ends is the one captured when it was
    requested, less one, whatever the count has become in between. *)
Lemma spinTick_final_count (random : nat → Q) (st : State) (c t n : Z) :
  intervalId st = Some {| capturedTicketCount := c; spinTimer := t |} →
  (2000 <= t + 100)%Z →
  ticketCount (snd (spinTick random (setTicketCount n st))) = (c - 1)%Z.
Proof.
  intros Hid Hge.
  by destruct (spinTick_final random (setTicketCount n st) c t Hid Hge)
    as (_ & -> & _).
Qed.

Lemma spinInv_init : spinInv init.
Proof. split; [done|]. discriminate. Qed.

Lemma spinInv_step (st : State) (e : Event) :
  spinInv st → spinInv (step st e).
Proof.
  intros Hinv. pose proof Hinv as [Hq Hs].
  destruct e as [|random|parsed|uid doc]; simpl.
  - unfold handleSpin. destruct (isSpinning st) eqn:E; [exact Hinv|].
    destruct (Z.ltb_spec 0 (ticketCount st)); simpl; [|exact Hinv].
    split; [exact Hq|]. intros _. simpl. done.
  - unfold spinTick. destruct (intervalId st) as [sp|]; [|exact Hinv].
    destruct (spinDuration <=? _)%Z; simpl.
    + split; [exact Hq|]. discriminate.
    + split; [exact Hq|exact Hs].
  - unfold changeQuantity, spinInv. simpl. split; [lia|exact Hs].
  - unfold handleBuyTickets. destruct uid; [|exact Hinv].
    destruct (Js.geb _ _); [|exact Hinv].
    assert (spinInv (setTicketCount (ticketCount st + ticketQuantity st) st))
      as Hbuy.
    { split; [exact Hq|]. simpl. intros Hsp. specialize (Hs Hsp). lia. }
    destruct doc; exact Hbuy.
Qed.

Lemma spinInv_run (es : list Event) (st : State) :
  spinInv st → spinInv (run es st).
Proof.
  unfold run. revert st. induction es as [|e es IH]; intros st Hinv; [done|].
  simpl. apply IH. by apply spinInv_step.
Qed.

End Spin.

(** A spin that no other event interrupts.  A spin requested while one
    is in flight reports AlreadySpinning and changes nothing (it is not
    queued); with none in flight and no ticket it reports
    NoTicketsAvailable and changes nothing.  Otherwise the spin starts; as
    long as only its timer runs, it stays in flight with the ticket count
    untouched for the first 19 runs, and the 20th run ends it: the ticket
    count is one less than when the spin was requested, and each final
    reel is [symbols[floor(u * 6)]] for its own draw [u], a draw in
    [[k/6, (k+1)/6)] giving position [k].  No state the component reaches
    has reels spinning on a ticket count of 0, so the two refusals never
    compete.  The result is Jackpot when all three reels agree,
    PartialMatch when exactly two agree, NoWin otherwise. *)
Theorem spin_uninterrupted (st : Raffle.State) (random : nat → nat → Q) :
  (Raffle.isSpinning st = true →
     Raffle.handleSpin st = (AlreadySpinning, st)) ∧
  (Raffle.isSpinning st = false → Raffle.ticketCount st = 0%Z →
     Raffle.handleSpin st = (NoTicketsAvailable, st)) ∧
  (Raffle.isSpinning st = false → (0 < Raffle.ticketCount st)%Z →
     ∃ st1, Raffle.handleSpin st = (SpinStarted, st1) ∧
       (∀ k : nat, (k < 20)%nat →
          let sk := Raffle.spinTicks k random st1 in
          Raffle.isSpinning sk = true ∧
          Raffle.ticketCount sk = Raffle.ticketCount st ∧
          Raffle.handleSpin sk = (AlreadySpinning, sk)) ∧
       let finalReel1 := Raffle.pick (random 19%nat 3%nat) in
       let finalReel2 := Raffle.pick (random 19%nat 4%nat) in
       let finalReel3 := Raffle.pick (random 19%nat 5%nat) in
       let s19 := Raffle.spinTicks 19 random st1 in
       let s20 := Raffle.spinTicks 20 random st1 in
       Raffle.spinTick (random 19%nat) s19
         = (Some (SpinResult
                    (Raffle.classify finalReel1 finalReel2 finalReel3)),
            s20) ∧
       Raffle.ticketCount s20 = (Raffle.ticketCount st - 1)%Z ∧
       Raffle.isSpinning s20 = false ∧
       Raffle.reel1 s20 = finalReel1 ∧ Raffle.reel2 s20 = finalReel2 ∧
       Raffle.reel3 s20 = finalReel3) ∧
  (∀ es : list Raffle.Event,
     Raffle.isSpinning (Raffle.run es Raffle.init) = true →
     (0 < Raffle.ticketCount (Raffle.run es Raffle.init))%Z) ∧
  (∀ a b c : option string,
     (a = b ∧ b = c → Raffle.classify a b c = Jackpot) ∧
     (¬ (a = b ∧ b = c) → a = b ∨ b = c ∨ a = c →
        Raffle.classify a b c = PartialMatch) ∧
     (a ≠ b → b ≠ c → a ≠ c → Raffle.classify a b c = NoWin)) ∧
  (∀ u : Q, 0 <= u → u < 1 →
     Raffle.pick u = Raffle.symbols !! Z.to_nat (Raffle.reelIndex u) ∧
     is_Some (Raffle.pick u) ∧
     ∀ k : Z, Raffle.reelIndex u = k ↔
              inject_Z k / 6 <= u ∧ u < inject_Z (k + 1) / 6).
Proof.
  split; [|split; [|split; [|split; [|split]]]].
  - apply handleSpin_busy.
  - intros Hs Hz. unfold Raffle.handleSpin. by rewrite Hs, Hz.
  - intros Hs Hpos.
    destruct (handleSpin_start st Hs Hpos) as (st1 & Hstart & Hid & Hs1 & Hc1).
    exists st1. split; [done|]. split.
    + intros k Hk sk.
      destruct (spinTicks_moving k random st1 _ 0 Hid) as (_ & Hsp & Hc);
        [lia|].
      fold sk in Hsp, Hc. rewrite Hs1 in Hsp. rewrite Hc1 in Hc.
      split; [done|]. split; [done|]. by apply handleSpin_busy.
    + cbv zeta.
      destruct (spinTicks_moving 19 random st1 _ 0 Hid) as (Hid19 & _ & _);
        [lia|].
      destruct (spinTick_final (random 19%nat) _ _ _ Hid19)
        as (Hn & Hc & Hsp & _ & H1 & H2 & H3); [lia|].
      rewrite (spinTicks_S_last 19).
      split; [|done].
      rewrite <- Hn. by destruct (Raffle.spinTick _ _).
  - intros es. by apply (spinInv_run es Raffle.init spinInv_init).
  - apply classify_spec.
  - intros u H0 H1. destruct (pick_in_range u H0 H1) as [Hp Hsome].
    split; [done|]. split; [done|]. intros k. apply reelIndex_interval.
Qed.

(** C9. The ticket count is not always decremented by exactly 1.  The
    last run of the spin's timer writes the count its closure captured
    when Spin was pressed, minus one, and Buy Tickets stays available
    while the reels turn: a holder who presses Spin on one ticket and buys
    one more during the spin holds two tickets, and is left with none when
    the spin ends, where one spin should have consumed one ticket and left
    one. *)
Theorem C9_spin_ticket_lost :
  let st0 := Raffle.setTicketCount 1 Raffle.init in
  let pressed := Raffle.run [Raffle.Spin] st0 in
  let bought :=
    Raffle.run [Raffle.BuyTickets (Some "holder") (fundedDoc 200000)]
      pressed in
  let ended := Raffle.run (replicate 20 (Raffle.TimerRun half)) bought in
  Raffle.handleSpin st0 = (SpinStarted, pressed) ∧
  Raffle.isSpinning bought = true ∧
  Raffle.ticketCount bought = 2%Z ∧
  Raffle.isSpinning ended = false ∧
  Raffle.ticketCount ended = 0%Z ∧
  Raffle.ticketCount ended ≠ (Raffle.ticketCount bought - 1)%Z ∧
  ended = Raffle.run boughtWhileSpinning st0.
Proof.
  intros st0 pressed bought ended.
  split; [reflexivity|]. split; [reflexivity|]. split; [reflexivity|].
  split; [reflexivity|]. split; [reflexivity|].
  split; [vm_compute; discriminate | vm_compute; reflexivity].
Qed.

(** C10. Every entry of the symbol alphabet is the empty string, so
    whatever [Math.random()] returns (a number in [[0, 1)]), the three
    final reels of a completed spin are equal and the result is Jackpot;
    the PartialMatch and NoWin results never come out. *)
Theorem C10_always_jackpot (st : Raffle.State) (random : nat → Q)
    (notice : Notice) (st' : Raffle.State) :
  (∀ k : nat, 0 <= random k ∧ random k < 1) →
  Raffle.spinTick random st = (Some notice, st') →
  Raffle.symbols = replicate 6 EmptyString ∧
  notice = SpinResult Jackpot ∧
  Raffle.reel1 st' = Raffle.reel2 st' ∧
  Raffle.reel2 st' = Raffle.reel3 st' ∧
  Raffle.reel1 st' = Some EmptyString ∧
  (∀ u1 u2 u3 : Q,
     0 <= u1 < 1 → 0 <= u2 < 1 → 0 <= u3 < 1 →
     Raffle.classify (Raffle.pick u1) (Raffle.pick u2) (Raffle.pick u3)
       = Jackpot).
Proof.
  intros Hrand Hdone. split; [reflexivity|].
  assert (∀ k, Raffle.pick (random k) = Some EmptyString) as Hpick.
  { intros k. destruct (Hrand k). by apply pick_empty. }
  unfold Raffle.spinTick in Hdone.
  destruct (Raffle.intervalId st) as [sp|]; [|discriminate].
  destruct (Raffle.spinDuration <=? _)%Z; [|discriminate].
  rewrite !Hpick in Hdone.
  injection Hdone as <- <-. simpl.
  split; [done|]. split; [done|]. split; [done|]. split; [done|].
  intros u1 u2 u3 [? ?] [? ?] [? ?]. by rewrite !pick_empty.
Qed.


(** * The properties at concrete inputs *)

(** The slot price at 2 and at 5 slots. *)
Lemma C3_costOf_witness :
  ((0 <= 2 <= 3)%Z ∧ Staking.calculateAddSlotCost 2 = 200000) ∧
  ((4 <= 5)%Z ∧ Staking.calculateAddSlotCost 5 = 200000 * 1.5 ^ (5 - 3)).
Proof.
  split.
  - assert (0 <= 2 <= 3)%Z as H by lia.
    split; [exact H | exact (proj1 C3_costOf 2%Z H)].
  - assert (4 <= 5)%Z as H by lia.
    split; [exact H | exact (proj1 (proj2 C3_costOf) 5%Z H)].
Defined.

(** Common and Rare staked, Unique not staked: the multiplier is 1.05. *)
Lemma C5_multiplier_witness :
  (("Legend" ∉ Staking.stakedTypes seedNFTs) ∧
   ("King" ∉ Staking.stakedTypes seedNFTs) ∧
   ("Unique" ∉ Staking.stakedTypes seedNFTs) ∧
   ("Common" ∈ Staking.stakedTypes seedNFTs)) ∧
  Staking.multiplierOf (Staking.stakedTypes seedNFTs) = 1.05.
Proof.
  assert ("Legend" ∉ Staking.stakedTypes seedNFTs) as H1
    by by_compute.
  assert ("King" ∉ Staking.stakedTypes seedNFTs) as H2
    by by_compute.
  assert ("Unique" ∉ Staking.stakedTypes seedNFTs) as H3
    by by_compute.
  assert ("Common" ∈ Staking.stakedTypes seedNFTs) as H4
    by by_compute.
  split; [done|].
  exact (proj2 (proj2 (proj2 (proj2
           (proj1 C5_multiplier (Staking.stakedTypes seedNFTs)))))
           H1 H2 H3 (or_introl H4)).
Defined.

(** A slot bought at 200000 from 250000 gets id 4 after the three seed
    assets; from 100000 the purchase is refused. *)
Lemma C1_purchaseSlot_witness :
  (200000 <= 250000 ∧
   ∃ (doc' : Staking.Doc) (slot : Staking.NFT),
     Staking.purchaseSlot 200000 (fundedDoc 250000)
       = (SlotBought 200000 (200000 * 0.5) (200000 - 200000 * 0.5),
          Some doc') ∧
     Staking.earned doc' = Some (250000 - 200000) ∧
     Staking.nfts doc' = Some (seedNFTs ++ [slot]) ∧
     Staking.id slot = 4%Z) ∧
  (100000 < 200000 ∧
   Staking.purchaseSlot 200000 (fundedDoc 100000)
     = (InsufficientBalance, fundedDoc 100000)).
Proof.
  split.
  - assert (200000 <= 250000) as H by (unfold Qle; simpl; lia).
    split; [exact H|].
    destruct (proj1 (proj2 (C1_purchaseSlot 200000 (fundedDoc 250000))) H)
      as (doc' & slot & Hbuy & He & _ & _ & Hn & _ & _ & _ & _ & _ & _).
    exists doc', slot. split; [exact Hbuy|]. split; [exact He|].
    split; [exact Hn|].
    unfold Staking.purchaseSlot in Hbuy. simpl in Hbuy.
    injection Hbuy as Hd. rewrite <- Hd in Hn. simpl in Hn.
    injection Hn as Hs. by rewrite <- Hs.
  - assert (100000 < 200000) as H by reflexivity.
    split; [exact H|].
    exact (proj1 (C1_purchaseSlot 200000 (fundedDoc 100000)) H).
Defined.


(** The holder burns 100000; the global ledger has nothing to burn. *)
Lemma C6_burnAll_witness :
  (0 <= 100000 ∧ ¬ 100000 == 0 ∧
   ∃ s', Burn.handleBurnEDinosur burnStore
           = (Burnt 100000 (15000 + 100000), s') ∧
         Burn.userLedger s' = (0, 15000 + 100000) ∧
         Burn.globalStats s' = Burn.globalStats burnStore) ∧
  (0 == 0 ∧ Burn.handleBurnDinosur burnStore = (NothingToBurn, burnStore)).
Proof.
  split.
  - assert (0 <= 100000) as H0 by (unfold Qle; simpl; lia).
    assert (¬ 100000 == 0) as H1 by (unfold Qeq; simpl; lia).
    split; [exact H0|]. split; [exact H1|].
    destruct (proj1 (proj2 (C6_burnAll burnStore)) H0 H1)
      as (s' & Hb & Hl & Hg & _).
    exists s'. split; [exact Hb|]. split; [exact Hl|exact Hg].
  - assert (0 == 0) as H by reflexivity.
    split; [exact H|].
    exact (proj1 (proj2 (proj2 (C6_burnAll burnStore))) H).
Defined.

(** On a full epoch counter a purchase of [2e-12] tokens is accepted.  In
    exact terms the spending of the epoch plus the cost is greater than
    250, both with the price the component holds and with
    [0.00005 * 1.10 ^ 0]; the double sum is 250, the purchase succeeds
    and neither counter grows. *)
Lemma C2_buy_counterexample :
  let st := SaleDouble.setBuyAmount 2e-12 fullCounter in
  SaleDouble.saleStarted st = true ∧
  SaleDouble.currentEpoch st = 0%Z ∧
  (∃ epochUsdSpent tokenAmount price : Q,
     Double.toQ (SaleDouble.userPurchasedUSDInCurrentEpoch st)
       = Some epochUsdSpent ∧
     Double.toQ (SaleDouble.buyAmount st) = Some tokenAmount ∧
     Double.toQ (SaleDouble.currentPrice st) = Some price ∧
     0 < tokenAmount ∧
     250 < epochUsdSpent + tokenAmount * price ∧
     250 < epochUsdSpent + tokenAmount * (0.00005 * 1.10 ^ 0)) ∧
  fst (SaleDouble.handleBuy st) ≠ SaleDouble.EpochCapExceeded ∧
  fst (SaleDouble.handleBuy st) = SaleDouble.Purchased 2e-12 250 250 ∧
  SaleDouble.userPurchasedUSDInCurrentEpoch (snd (SaleDouble.handleBuy st))
    = SaleDouble.userPurchasedUSDInCurrentEpoch st ∧
  SaleDouble.userPurchasedUSD (snd (SaleDouble.handleBuy st))
    = SaleDouble.userPurchasedUSD st.
Proof.
  intros st.
  split; [reflexivity|]. split; [reflexivity|]. split.
  - eexists _, _, _.
    split; [vm_compute; reflexivity|].
    split; [vm_compute; reflexivity|].
    split; [vm_compute; reflexivity|].
    split; [reflexivity|]. split; reflexivity.
  - split; [vm_compute; discriminate|].
    split; [vm_compute; reflexivity|].
    split; vm_compute; reflexivity.
Qed.

(** With 150 spent in the epoch, a purchase worth 150 is refused. *)
Lemma C2_buy_witness :
  let st := spent150 in
  let cost :=
    (SaleDouble.buyAmount st
     * SaleDouble.price SaleDouble.powByMul
         (SaleDouble.currentEpoch st))%float in
  (SaleDouble.userId st = Some "holder" ∧
   SaleDouble.currentPrice st
     = SaleDouble.price SaleDouble.powByMul (SaleDouble.currentEpoch st) ∧
   SaleDouble.saleStarted st = true ∧
   Double.isNaN (SaleDouble.buyAmount st) = false ∧
   Double.le (SaleDouble.buyAmount st) 0 = false ∧
   Double.gt (SaleDouble.userPurchasedUSD st + cost)%float 1000 = false ∧
   Double.gt (SaleDouble.userPurchasedUSDInCurrentEpoch st + cost)%float 250
     = true) ∧
  SaleDouble.handleBuy st = (SaleDouble.EpochCapExceeded, st).
Proof.
  intros st cost.
  assert (SaleDouble.userId st = Some "holder") as Hu by reflexivity.
  assert (SaleDouble.currentPrice st
          = SaleDouble.price SaleDouble.powByMul
              (SaleDouble.currentEpoch st)) as Hp
    by (vm_compute; reflexivity).
  assert (SaleDouble.saleStarted st = true) as Hs by reflexivity.
  assert (Double.isNaN (SaleDouble.buyAmount st) = false) as Hn
    by (vm_compute; reflexivity).
  assert (Double.le (SaleDouble.buyAmount st) 0 = false) as H0
    by (vm_compute; reflexivity).
  assert (Double.gt (SaleDouble.userPurchasedUSD st + cost)%float 1000
          = false) as Hw by (vm_compute; reflexivity).
  assert (Double.gt (SaleDouble.userPurchasedUSDInCurrentEpoch st + cost)%float
            250 = true) as He by (vm_compute; reflexivity).
  split;
    [exact (conj Hu (conj Hp (conj Hs (conj Hn (conj H0 (conj Hw He))))))|].
  exact (proj1 (proj2 (proj2 (proj2
           (proj2 (C2_buy SaleDouble.powByMul st "holder" Hu Hp) Hs)) Hn H0))
           Hw He).
Defined.

(** After the first tick of epoch 2 on a full counter, the counter is 0
    and 4132231.404958677 tokens are worth less than 250 at the price
    [0.00005 * 1.10 ^ 2]; the component holds a price rounded upwards,
    computes a cost above 250 and refuses the purchase. *)
Lemma C7_epoch_reset_counterexample :
  let now := (saleStart + 2 * Sale.epochMs + 1)%Z in
  let st := SaleDouble.tick SaleDouble.powByMul now fullCounter in
  SaleDouble.userPurchasedUSDInCurrentEpoch fullCounter = 250%float ∧
  SaleDouble.userPurchasedUSD fullCounter = 250%float ∧
  SaleDouble.lastPurchaseEpoch fullCounter = 0%Z ∧
  SaleDouble.currentEpoch st = 2%Z ∧
  SaleDouble.userPurchasedUSDInCurrentEpoch st = 0%float ∧
  (∃ tokenAmount : Q,
     Double.toQ 4132231.404958677 = Some tokenAmount ∧
     0 < tokenAmount ∧
     tokenAmount * (0.00005 * 1.10 ^ 2) <= 250 ∧
     250 + tokenAmount * (0.00005 * 1.10 ^ 2) <= 1000) ∧
  SaleDouble.handleBuy (SaleDouble.setBuyAmount 4132231.404958677 st)
    = (SaleDouble.EpochCapExceeded,
       SaleDouble.setBuyAmount 4132231.404958677 st).
Proof.
  intros now st.
  split; [vm_compute; reflexivity|]. split; [vm_compute; reflexivity|].
  split; [reflexivity|]. split; [reflexivity|].
  split; [vm_compute; reflexivity|]. split.
  - eexists. split; [vm_compute; reflexivity|].
    split; [reflexivity|]. split; vm_compute; discriminate.
  - vm_compute. reflexivity.
Qed.

(** A full epoch counter is zeroed by the first tick of epoch 1, and
    1,000,000 tokens can be bought again. *)
Lemma C7_epoch_reset_witness :
  let st := fullCounter in
  let now := (saleStart + Sale.epochMs + 1)%Z in
  let st1 := SaleDouble.tick SaleDouble.powByMul now st in
  let e := Sale.epochIndex (SaleDouble.saleStartTime st) now in
  let cost := (1000000 * SaleDouble.price SaleDouble.powByMul e)%float in
  (SaleDouble.userId st = Some "holder" ∧
   (SaleDouble.saleStartTime st < now)%Z ∧
   e ≠ SaleDouble.lastPurchaseEpoch st ∧
   Double.isNaN 1000000 = false ∧ Double.le 1000000 0 = false ∧
   Double.gt cost 250 = false ∧
   Double.gt (SaleDouble.userPurchasedUSD st + cost)%float 1000 = false) ∧
  (SaleDouble.resets now st = true ∧
   SaleDouble.userPurchasedUSDInCurrentEpoch st1 = 0%float) ∧
  ∃ st', SaleDouble.handleBuy (SaleDouble.setBuyAmount 1000000 st1)
           = (SaleDouble.Purchased 1000000
                (SaleDouble.userPurchasedUSD st + cost)%float
                (0 + cost)%float, st') ∧
         SaleDouble.userPurchasedUSDInCurrentEpoch st' = (0 + cost)%float ∧
         SaleDouble.lastPurchaseEpoch st' = e.
Proof.
  intros st now st1 e cost.
  assert (SaleDouble.userId st = Some "holder") as Hu by reflexivity.
  assert (SaleDouble.saleStartTime st < now)%Z as Hlt by reflexivity.
  assert (e ≠ SaleDouble.lastPurchaseEpoch st) as Hne
    by (vm_compute; discriminate).
  assert (Double.isNaN 1000000 = false) as Hn by (vm_compute; reflexivity).
  assert (Double.le 1000000 0 = false) as H0 by (vm_compute; reflexivity).
  assert (Double.gt cost 250 = false) as Hc by (vm_compute; reflexivity).
  assert (Double.gt (SaleDouble.userPurchasedUSD st + cost)%float 1000
          = false) as Hw by (vm_compute; reflexivity).
  split;
    [exact (conj Hu (conj Hlt (conj Hne (conj Hn (conj H0 (conj Hc Hw))))))
    |].
  pose proof (C7_epoch_reset SaleDouble.powByMul st "holder" now Hu Hlt)
    as (_ & Hreset & _ & _ & _ & Hbuy).
  split; [exact (Hreset Hne)|].
  exact (Hbuy Hne 1000000%float Hn H0 Hc Hw).
Defined.



(** A spin with two tickets ends after 20 runs with one ticket. *)
Lemma spin_uninterrupted_example :
  let st := Raffle.setTicketCount 2 Raffle.init in
  (Raffle.isSpinning st = false ∧ (0 < Raffle.ticketCount st)%Z) ∧
  ∃ st1, Raffle.handleSpin st = (SpinStarted, st1) ∧
         Raffle.ticketCount (Raffle.spinTicks 20 (λ _, half) st1) = 1%Z ∧
         Raffle.isSpinning (Raffle.spinTicks 20 (λ _, half) st1) = false.
Proof.
  intros st.
  assert (Raffle.isSpinning st = false) as Hs by reflexivity.
  assert (0 < Raffle.ticketCount st)%Z as Hc by reflexivity.
  split; [done|].
  destruct (proj1 (proj2 (proj2 (spin_uninterrupted st (λ _, half)))) Hs Hc)
    as (st1 & Hstart & _ & _ & Hcount & Hdone & _).
  exists st1. split; [exact Hstart|]. split; [exact Hcount|exact Hdone].
Defined.

(** The last run of a spin, with every draw at one half. *)
Lemma C10_always_jackpot_witness :
  let st' := snd (Raffle.spinTick half lastRun) in
  ((∀ k : nat, 0 <= half k ∧ half k < 1) ∧
   Raffle.spinTick half lastRun = (Some (SpinResult Jackpot), st')) ∧
  Raffle.reel1 st' = Raffle.reel2 st' ∧
  Raffle.reel2 st' = Raffle.reel3 st' ∧
  Raffle.reel1 st' = Some EmptyString.
Proof.
  intros st'.
  assert (∀ k : nat, 0 <= half k ∧ half k < 1) as Hr
    by (intros k; split; by_Qcompare).
  assert (Raffle.spinTick half lastRun = (Some (SpinResult Jackpot), st'))
    as Hd by (vm_compute; reflexivity).
  split; [done|].
  destruct (C10_always_jackpot lastRun half (SpinResult Jackpot) st' Hr Hd)
    as (_ & _ & H12 & H23 & H1 & _).
  split; [exact H12|]. split; [exact H23|exact H1].
Defined.


(** ** Scenarios of the specification *)

(** An account with no document cannot pay for a slot; with a balance of
    200000 the purchase leaves balance 0, readyToBurn 100000 and one more
    asset. *)
Example slot_scenario :
  Staking.handleAddSlot (Some "holder") None = (InsufficientBalance, None) ∧
  ∃ doc', snd (Staking.handleAddSlot (Some "holder")
                 (Some {| Staking.nfts := None;
                          Staking.earned := Some 200000;
                          Staking.readyToBurnEDinosur := None;
                          Staking.totalBurntEDinosur := None |}))
            = Some doc' ∧
          Js.orZero (Staking.earned doc') == 0 ∧
          Js.orZero (Staking.readyToBurnEDinosur doc') == 100000 ∧
          length (default [] (Staking.nfts doc')) = 1%nat.
Proof.
  split; [reflexivity|]. eexists. split; [reflexivity|].
  split; [reflexivity|]. split; reflexivity.
Qed.

(** Three purchases of 1,000,000 tokens at epoch 0 cost 50 each and
    succeed; a fourth purchase worth 150 in the same epoch is refused. *)
Example sale_scenario :
  SaleDouble.userPurchasedUSDInCurrentEpoch spent150 = 150%float ∧
  SaleDouble.userPurchasedUSD spent150 = 150%float ∧
  SaleDouble.handleBuy spent150 = (SaleDouble.EpochCapExceeded, spent150).
Proof.
  split; [vm_compute; reflexivity|]. split; vm_compute; reflexivity.
Qed.

(** With 0.05 spent, 4,999,000 tokens at 0.00005 bring the double sum to
    250.00000000000003: the purchase is refused. *)
Example sale_boundary :
  let st :=
    SaleDouble.run SaleDouble.powByMul
      [SaleDouble.Tick (saleStart + 1);
       SaleDouble.Input 1000; SaleDouble.Buy;
       SaleDouble.Input 4999000]
      (SaleDouble.init (Some "holder") 0) in
  SaleDouble.userPurchasedUSDInCurrentEpoch st = 0.05%float ∧
  (SaleDouble.userPurchasedUSDInCurrentEpoch st
   + SaleDouble.buyAmount st * SaleDouble.currentPrice st)%float
    = 250.00000000000003%float ∧
  SaleDouble.handleBuy st = (SaleDouble.EpochCapExceeded, st).
Proof.
  split; [vm_compute; reflexivity|]. split; vm_compute; reflexivity.
Qed.


(** With [Math.pow] computed by repeated multiplication, the prices held
    over the first 520 epochs, ten years, never decrease. *)
Example price_order_ten_years :
  forallb
    (λ e, Double.le (SaleDouble.price SaleDouble.powByMul (Z.of_nat e))
            (SaleDouble.price SaleDouble.powByMul (Z.of_nat (S e))))
    (seq 0 520)
  = true.
Proof. vm_compute. reflexivity. Qed.

(** * Further properties of the handlers *)

(** ** Staking and unstaking *)

Section StakeUnstake.
Import StakingSection.

Lemma stakeOne_view (id now : Z) (nft : Staking.NFT) :
  Staking.id (stakeOne id now nft) = Staking.id nft ∧
  Staking.type (stakeOne id now nft) = Staking.type nft ∧
  Staking.earning (stakeOne id now nft) = Staking.earning nft.
Proof. unfold stakeOne. by destruct (_ =? _)%Z. Qed.

Lemma unstakeOne_view (id : Z) (nft : Staking.NFT) :
  Staking.id (unstakeOne id nft) = Staking.id nft ∧
  Staking.type (unstakeOne id nft) = Staking.type nft ∧
  Staking.earning (unstakeOne id nft) = Staking.earning nft.
Proof. unfold unstakeOne. by destruct (_ =? _)%Z. Qed.

Lemma stakeOne_staked (id now : Z) (nft : Staking.NFT) :
  Staking.staked nft = true → Staking.staked (stakeOne id now nft) = true.
Proof. unfold stakeOne. by destruct (_ =? _)%Z. Qed.

Lemma unstakeOne_staked (id : Z) (nft : Staking.NFT) :
  Staking.staked (unstakeOne id nft) = true → Staking.staked nft = true.
Proof. unfold unstakeOne. by destruct (_ =? _)%Z. Qed.

Lemma unstake_stakeOne (id now : Z) (nft : Staking.NFT) :
  (Staking.id nft = id →
   Staking.staked nft = false ∧ Staking.lastStakedTime nft = 0%Z) →
  unstakeOne id (stakeOne id now nft) = nft.
Proof.
  intros Hfresh. unfold stakeOne.
  destruct (Z.eqb_spec (Staking.id nft) id) as [Heq|Hne].
  - destruct (Hfresh Heq) as [Hs Ht]. unfold unstakeOne. simpl.
    rewrite (proj2 (Z.eqb_eq _ _) Heq).
    destruct nft as [i ty e s t]. simpl in *. by subst.
  - unfold unstakeOne. by rewrite (proj2 (Z.eqb_neq _ _) Hne).
Qed.

Lemma ids_stake (id now : Z) (nfts : list Staking.NFT) :
  Staking.id <$> (stakeOne id now <$> nfts) = Staking.id <$> nfts.
Proof.
  rewrite <- list_fmap_compose. apply list_fmap_ext.
  intros _ nft _. simpl. apply stakeOne_view.
Qed.

Lemma ids_unstake (id : Z) (nfts : list Staking.NFT) :
  Staking.id <$> (unstakeOne id <$> nfts) = Staking.id <$> nfts.
Proof.
  rewrite <- list_fmap_compose. apply list_fmap_ext.
  intros _ nft _. simpl. apply unstakeOne_view.
Qed.

End StakeUnstake.

(** X1. Staking an asset and unstaking it again gives back the state one
    started from, provided the assets with that id were unstaked with a
    stake time of 0 (as every asset is when created); and unstaking twice
    is the same as unstaking once. *)
Theorem stake_unstake_roundtrip (id now : Z) (st : StakingSection.State) :
  (∀ nft, nft ∈ StakingSection.stakedNFTs st → Staking.id nft = id →
          Staking.staked nft = false ∧ Staking.lastStakedTime nft = 0%Z) →
  let staked := (StakingSection.handleStakeNFT id now st).1.2 in
  let unstaked := (StakingSection.handleUnstakeNFT id staked).1.2 in
  unstaked = st ∧
  (StakingSection.handleUnstakeNFT id unstaked).1.2 = unstaked ∧
  (∀ nft, nft ∈ StakingSection.stakedNFTs staked → Staking.id nft = id →
          Staking.staked nft = true ∧ Staking.lastStakedTime nft = now).
Proof.
  intros Hfresh staked unstaked.
  assert (unstaked = st) as Hrt.
  { unfold unstaked, staked. destruct st as [nfts earned]. simpl in *.
    f_equal. rewrite <- list_fmap_compose.
    rewrite <- (list_fmap_id nfts) at 2. apply list_fmap_ext.
    intros k nft Hin. simpl. apply unstake_stakeOne.
    apply Hfresh. by eapply list_elem_of_lookup_2. }
  split; [exact Hrt|]. split.
  - rewrite Hrt. destruct st as [nfts earned]. simpl in *. f_equal.
    rewrite <- (list_fmap_id nfts) at 2. apply list_fmap_ext.
    intros k nft Hin. simpl. unfold StakingSection.unstakeOne.
    destruct (Z.eqb_spec (Staking.id nft) id) as [Heq|Hne]; [|done].
    destruct (Hfresh nft) as [Hs Ht]; [by eapply list_elem_of_lookup_2|done|].
    destruct nft as [i ty e s t]. simpl in *. by subst.
  - intros nft Hin Hid. unfold staked in Hin. simpl in Hin.
    apply list_elem_of_fmap in Hin as (nft0 & -> & Hin0).
    unfold StakingSection.stakeOne in *.
    destruct (Z.eqb_spec (Staking.id nft0) id) as [Heq|Hne]; [done|].
    by destruct Hne.
Qed.

Section MultiplierOrder.
Import Staking StakingSection.

Lemma multiplierOf_mono (S S' : gset string) :
  S ⊆ S' → multiplierOf S <= multiplierOf S'.
Proof.
  intros Hsub. rewrite elem_of_subseteq in Hsub. unfold multiplierOf.
  repeat case_bool_decide; simpl; try by_Qcompare;
    exfalso;
    match goal with
    | Hin : ?x ∈ S, Hnot : ?x ∉ S' |- _ => exact (Hnot (Hsub x Hin))
    end.
Qed.

Lemma multiplierOf_bounds (S : gset string) :
  1 <= multiplierOf S ∧ multiplierOf S <= 1.5.
Proof.
  unfold multiplierOf.
  repeat case_bool_decide; simpl; split; by_Qcompare.
Qed.

Lemma stakedTypes_stake (id now : Z) (nfts : list NFT) :
  stakedTypes nfts ⊆ stakedTypes (stakeOne id now <$> nfts).
Proof.
  apply elem_of_subseteq. intros t. rewrite !elem_of_stakedTypes.
  intros (nft & Hin & Hs & Ht). exists (stakeOne id now nft).
  split; [by apply list_elem_of_fmap_2|].
  split; [by apply stakeOne_staked|].
  by destruct (stakeOne_view id now nft) as (_ & -> & _).
Qed.

Lemma stakedTypes_unstake (id : Z) (nfts : list NFT) :
  stakedTypes (unstakeOne id <$> nfts) ⊆ stakedTypes nfts.
Proof.
  apply elem_of_subseteq. intros t. rewrite !elem_of_stakedTypes.
  intros (nft' & Hin & Hs & Ht).
  apply list_elem_of_fmap in Hin as (nft & -> & Hin).
  exists nft. split; [done|]. split; [by apply (unstakeOne_staked id)|].
  by destruct (unstakeOne_view id nft) as (_ & <- & _).
Qed.

Lemma multiplier_stake_order (id now : Z) (nfts : list NFT) :
  calculateMultiplier nfts <= calculateMultiplier (stakeOne id now <$> nfts).
Proof. apply multiplierOf_mono, stakedTypes_stake. Qed.

Lemma multiplier_unstake_order (id : Z) (nfts : list NFT) :
  calculateMultiplier (unstakeOne id <$> nfts) <= calculateMultiplier nfts.
Proof. apply multiplierOf_mono, stakedTypes_unstake. Qed.

End MultiplierOrder.

(** X2. The multiplier lies between 1 and 1.5; staking an asset never lowers
    it and unstaking one never raises it. *)
Theorem multiplier_stake_monotone (id now : Z) (nfts : list Staking.NFT) :
  (1 <= Staking.calculateMultiplier nfts ∧
   Staking.calculateMultiplier nfts <= 1.5) ∧
  Staking.calculateMultiplier nfts
    <= Staking.calculateMultiplier (StakingSection.stakeOne id now <$> nfts) ∧
  Staking.calculateMultiplier (StakingSection.unstakeOne id <$> nfts)
    <= Staking.calculateMultiplier nfts.
Proof.
  unfold Staking.calculateMultiplier. split; [apply multiplierOf_bounds|].
  split; apply multiplierOf_mono;
    [apply stakedTypes_stake|apply stakedTypes_unstake].
Qed.

(** ** Asset identifiers *)

Section AssetIds.
Import Staking StakingSection.

Lemma NoDup_ids_newSlot (nfts : list NFT) :
  NoDup (id <$> nfts) → NoDup (id <$> (nfts ++ [newSlot nfts])).
Proof.
  intros Hnd. rewrite fmap_app. apply NoDup_app.
  split; [done|]. split; [|apply NoDup_singleton].
  intros i Hi Hnew. apply list_elem_of_singleton in Hnew.
  apply list_elem_of_fmap in Hi as (nft & -> & Hin).
  pose proof (newId_above nfts nft Hin) as Hlt.
  simpl in Hnew. lia.
Qed.

Lemma NoDup_ids_step (nfts : list NFT) (e : ListEvent) :
  NoDup (id <$> nfts) → NoDup (id <$> listStep nfts e).
Proof.
  intros Hnd. destruct e as [i now|i|]; simpl.
  - by rewrite ids_stake.
  - by rewrite ids_unstake.
  - by apply NoDup_ids_newSlot.
Qed.

End AssetIds.

(** X3. Asset ids that are pairwise distinct stay so under every sequence of
    stakes, unstakes and slot purchases, and under [purchaseSlot] on the
    document, whether it succeeds or not. *)
Theorem asset_ids_stay_distinct (nfts : list Staking.NFT) :
  NoDup (Staking.id <$> nfts) →
  (∀ es : list StakingSection.ListEvent,
     NoDup (Staking.id <$> fold_left StakingSection.listStep es nfts)) ∧
  (∀ (C : Q) (doc : option Staking.Doc),
     default [] (doc ≫= Staking.nfts) = nfts →
     NoDup (Staking.id
              <$> default [] ((Staking.purchaseSlot C doc).2
                                ≫= Staking.nfts))).
Proof.
  intros Hnd. split.
  - intros es. revert nfts Hnd.
    induction es as [|e es IH]; intros nfts Hnd; [done|].
    simpl. apply IH. by apply NoDup_ids_step.
  - intros C doc Hdoc. unfold Staking.purchaseSlot. rewrite Hdoc.
    destruct (Js.geb _ C); simpl.
    + by apply NoDup_ids_newSlot.
    + by rewrite Hdoc.
Qed.

(** ** The growth of the slot price *)

(** X4. The price of a slot is never below 200000, never falls when the slot
    count grows, and from 4 slots on each further slot costs one and a
    half times the one before. *)
Theorem slot_cost_growth (n m : Z) :
  (n <= m)%Z →
  200000 <= Staking.calculateAddSlotCost n ∧
  Staking.calculateAddSlotCost n <= Staking.calculateAddSlotCost m ∧
  ((4 <= n)%Z →
     Staking.calculateAddSlotCost (n + 1)
       == 1.5 * Staking.calculateAddSlotCost n).
Proof.
  intros Hnm.
  assert (∀ k, (4 <= k)%Z → 200000 <= 200000 * 1.5 ^ (k - 3)) as Hbase.
  { intros k Hk. rewrite <- (Qmult_1_r 200000) at 1.
    apply Qmult_le_l; [reflexivity|].
    apply Qpower_1_le; [by_Qcompare|lia]. }
  split; [|split].
  - destruct (Z.lt_ge_cases n 4) as [Hlt|Hge].
    + rewrite addSlotCost_low by lia. apply Qle_refl.
    + rewrite addSlotCost_high by done. by apply Hbase.
  - destruct (Z.lt_ge_cases n 4) as [Hlt|Hge].
    + rewrite (addSlotCost_low n) by lia.
      destruct (Z.lt_ge_cases m 4) as [Hlt'|Hge'].
      * rewrite addSlotCost_low by lia. apply Qle_refl.
      * rewrite addSlotCost_high by done. by apply Hbase.
    + rewrite !addSlotCost_high by lia.
      apply Qmult_le_l; [reflexivity|].
      apply Qpower_le_compat_l; [lia|by_Qcompare].
  - intros Hge. rewrite !addSlotCost_high by lia.
    replace (n + 1 - 3)%Z with (1 + (n - 3))%Z by lia.
    rewrite Qpower_plus by (intros H; discriminate H).
    change (1.5 ^ 1) with 1.5. ring.
Qed.

(** ** Earning over time *)

Section Earning.
Import Staking StakingSection.

Lemma fold_earning_acc (l : list NFT) (a : Q) :
  fold_left (λ acc nft, acc + earning nft) l a
  == a + fold_left (λ acc nft, acc + earning nft) l 0.
Proof.
  revert a. induction l as [|x l IH]; intros a; simpl.
  - ring.
  - rewrite (IH (a + earning x)), (IH (0 + earning x)). ring.
Qed.

(** The contribution of one asset to the daily earnings. *)
Lemma baseDailyEarnings_cons (x : NFT) (l : list NFT) :
  baseDailyEarnings (x :: l)
  == (if staked x then earning x else 0) + baseDailyEarnings l.
Proof.
  unfold baseDailyEarnings. rewrite filter_cons.
  destruct (decide (staked x = true)) as [Hs|Hs].
  - rewrite Hs. simpl. rewrite fold_earning_acc. ring.
  - destruct (staked x); [done|]. ring.
Qed.

Lemma baseDailyEarnings_nonneg (l : list NFT) :
  Forall (λ nft, 0 <= earning nft) l → 0 <= baseDailyEarnings l.
Proof.
  induction 1 as [|x l Hx _ IH]; [apply Qle_refl|].
  rewrite baseDailyEarnings_cons.
  destruct (staked x).
  - rewrite <- (Qplus_0_l 0). by apply Qplus_le_compat.
  - by rewrite Qplus_0_l.
Qed.

Lemma baseDailyEarnings_none (l : list NFT) :
  (∀ nft, nft ∈ l → staked nft = false) → baseDailyEarnings l == 0.
Proof.
  induction l as [|x l IH]; intros Hnone; [reflexivity|].
  rewrite baseDailyEarnings_cons, (Hnone x) by left.
  rewrite IH; [ring|]. intros nft Hin. apply Hnone. by right.
Qed.

Lemma baseDailyEarnings_stake (id now : Z) (l : list NFT) :
  Forall (λ nft, 0 <= earning nft) l →
  baseDailyEarnings l <= baseDailyEarnings (stakeOne id now <$> l).
Proof.
  induction 1 as [|x l Hx _ IH]; [apply Qle_refl|].
  rewrite fmap_cons, !baseDailyEarnings_cons.
  apply Qplus_le_compat; [|exact IH].
  destruct (stakeOne_view id now x) as (_ & _ & ->).
  destruct (staked x) eqn:Hs.
  - rewrite (stakeOne_staked id now x Hs). apply Qle_refl.
  - by destruct (staked (stakeOne id now x)); [|apply Qle_refl].
Qed.

Lemma baseDailyEarnings_unstake (id : Z) (l : list NFT) :
  Forall (λ nft, 0 <= earning nft) l →
  baseDailyEarnings (unstakeOne id <$> l) <= baseDailyEarnings l.
Proof.
  induction 1 as [|x l Hx _ IH]; [apply Qle_refl|].
  rewrite fmap_cons, !baseDailyEarnings_cons.
  apply Qplus_le_compat; [|exact IH].
  destruct (unstakeOne_view id x) as (_ & _ & ->).
  destruct (staked (unstakeOne id x)) eqn:Hs.
  - rewrite (unstakeOne_staked id x Hs). apply Qle_refl.
  - by destruct (staked x); [|apply Qle_refl].
Qed.

(** A rate is the daily amount times the multiplier over the seconds of
    a day: it grows with both. *)
Lemma perSecond_le (l l' : list NFT) :
  0 <= baseDailyEarnings l →
  baseDailyEarnings l <= baseDailyEarnings l' →
  calculateMultiplier l <= calculateMultiplier l' →
  perSecond l <= perSecond l'.
Proof.
  intros H0 Hb Hm. unfold perSecond, Qdiv.
  apply Qmult_le_compat_r; [|by_Qcompare].
  apply Qmult_le_compat_nonneg; [done|]. split; [|done].
  apply Qle_trans with 1; [by_Qcompare|].
  apply multiplierOf_bounds.
Qed.

Lemma perSecond_nonneg (l : list NFT) :
  Forall (λ nft, 0 <= earning nft) l → 0 <= perSecond l.
Proof.
  intros H. unfold perSecond, Qdiv.
  apply Qmult_le_0_compat; [|by_Qcompare].
  apply Qmult_le_0_compat; [by apply baseDailyEarnings_nonneg|].
  apply Qle_trans with 1; [by_Qcompare|]. apply multiplierOf_bounds.
Qed.

End Earning.

(** X6. With assets whose [earning] is not negative the balance never falls
    under the earning interval; with nothing staked it stays as it is;
    staking an asset never lowers the amount earned per second and
    unstaking one never raises it. *)
Theorem earning_rate_order (id now : Z) (st : StakingSection.State) :
  let nfts := StakingSection.stakedNFTs st in
  Forall (λ nft, 0 <= Staking.earning nft) nfts →
  StakingSection.totalEarned st
    <= StakingSection.totalEarned (StakingSection.earnTick st) ∧
  ((∀ nft, nft ∈ nfts → Staking.staked nft = false) →
     StakingSection.totalEarned (StakingSection.earnTick st)
       == StakingSection.totalEarned st) ∧
  StakingSection.perSecond nfts
    <= StakingSection.perSecond (StakingSection.stakeOne id now <$> nfts) ∧
  StakingSection.perSecond (StakingSection.unstakeOne id <$> nfts)
    <= StakingSection.perSecond nfts.
Proof.
  intros nfts Hnn. split; [|split; [|split]].
  - simpl. rewrite <- (Qplus_0_r (StakingSection.totalEarned st)) at 1.
    apply Qplus_le_compat; [apply Qle_refl|]. by apply perSecond_nonneg.
  - intros Hnone. simpl. unfold StakingSection.perSecond. fold nfts.
    rewrite (baseDailyEarnings_none nfts Hnone). field.
  - apply perSecond_le.
    + by apply baseDailyEarnings_nonneg.
    + by apply baseDailyEarnings_stake.
    + apply multiplier_stake_order.
  - apply perSecond_le.
    + apply baseDailyEarnings_nonneg. apply Forall_fmap.
      eapply Forall_impl; [exact Hnn|]. intros x Hx. simpl.
      by destruct (unstakeOne_view id x) as (_ & _ & ->).
    + by apply baseDailyEarnings_unstake.
    + apply multiplier_unstake_order.
Qed.

(** ** Claiming the staking reward *)

(** X7. A claim on a positive balance zeroes the component's balance and
    leaves the assets alone, but persists nothing: the write it issues
    carries [readyToBurnEDinosur: undefined], so for a connected wallet
    the message left on display is the failure of
    [updateFirestoreStaking], and without a wallet the request to connect
    one; it is never "Claimed".  On a balance that is not positive the
    claim reports NothingToClaim and changes nothing.  Right after any
    claim a second one finds nothing to claim and changes nothing. *)
Theorem claim_reward_once (userId : option string)
    (st : StakingSection.State) :
  let r := StakingSection.handleClaimReward userId st in
  let st' := r.1.2 in
  StakingSection.stakedNFTs st' = StakingSection.stakedNFTs st ∧
  r.2 = None ∧
  (∀ amount : Q, r.1.1 ≠ StakingSection.Claimed amount) ∧
  (0 < StakingSection.totalEarned st →
     r.1.1 = match userId with
             | Some _ => StakingSection.UpdateFailed
             | None => StakingSection.SaveNeedsWallet
             end ∧
     StakingSection.totalEarned st' = 0) ∧
  (StakingSection.totalEarned st <= 0 →
     r = (StakingSection.NothingToClaim, st, None)) ∧
  StakingSection.handleClaimReward userId st'
    = (StakingSection.NothingToClaim, st', None).
Proof.
  intros r st'. unfold st', r, StakingSection.handleClaimReward.
  destruct (Qlt_le_dec 0 (StakingSection.totalEarned st)) as [Hpos|Hle].
  - rewrite (gtb_true _ _ Hpos). simpl.
    split; [done|]. split; [by destruct userId|].
    split; [by destruct userId|]. split; [by destruct userId|].
    split; [|done].
    intros Hle. exfalso. by apply (Qlt_not_le _ _ Hpos).
  - rewrite (gtb_false _ _ Hle). simpl. rewrite (gtb_false _ _ Hle).
    split; [done|]. split; [done|]. split; [done|]. split; [|done].
    intros Hpos. exfalso. by apply (Qlt_not_le _ _ Hpos).
Qed.

(** ** The burn ledgers and the balance *)

Section BurnMore.
Import Burn.

Lemma handleBurnEDinosur_cases (s : Store) :
  (0 < fst (userLedger s) ∧
   userLedger (handleBurnEDinosur s).2
     = (0, snd (userLedger s) + fst (userLedger s)) ∧
   globalStats (handleBurnEDinosur s).2 = globalStats s ∧
   (handleBurnEDinosur s).2.(staking) ≫= Staking.earned
     = staking s ≫= Staking.earned) ∨
  (fst (userLedger s) <= 0 ∧ handleBurnEDinosur s = (NothingToBurn, s)).
Proof.
  unfold handleBurnEDinosur.
  change (Js.orZero (staking s ≫= Staking.readyToBurnEDinosur))
    with (fst (userLedger s)).
  change (Js.orZero (staking s ≫= Staking.totalBurntEDinosur))
    with (snd (userLedger s)).
  destruct (Qlt_le_dec 0 (fst (userLedger s))) as [Hpos|Hle].
  - left. rewrite (gtb_true _ _ Hpos).
    destruct (staking s) as [d|] eqn:Hd; [done|].
    exfalso. unfold userLedger in Hpos. rewrite Hd in Hpos. simpl in Hpos.
    by apply (Qlt_irrefl 0).
  - right. by rewrite (gtb_false _ _ Hle).
Qed.

Lemma handleBurnDinosur_cases (s : Store) :
  (0 < fst (globalLedger s) ∧
   globalLedger (handleBurnDinosur s).2
     = (0, snd (globalLedger s) + fst (globalLedger s)) ∧
   staking (handleBurnDinosur s).2 = staking s) ∨
  (fst (globalLedger s) <= 0 ∧ handleBurnDinosur s = (NothingToBurn, s)).
Proof.
  unfold handleBurnDinosur.
  change (Js.orZero (globalStats s ≫= readyToBurnDinosur))
    with (fst (globalLedger s)).
  change (Js.orZero (globalStats s ≫= totalBurntDinosur))
    with (snd (globalLedger s)).
  destruct (Qlt_le_dec 0 (fst (globalLedger s))) as [Hpos|Hle].
  - left. rewrite (gtb_true _ _ Hpos).
    destruct (globalStats s) as [d|] eqn:Hd; [done|].
    exfalso. unfold globalLedger in Hpos. rewrite Hd in Hpos.
    simpl in Hpos. by apply (Qlt_irrefl 0).
  - right. by rewrite (gtb_false _ _ Hle).
Qed.

End BurnMore.

(** X8. Whatever the ledger holds, a burn keeps the sum of readyToBurn and
    totalBurnt, never lowers totalBurnt, and a second burn right after it
    finds nothing to burn and changes nothing.  This holds for the
    holder's ledger and for the global one. *)
Theorem burn_conserves (s : Burn.Store) :
  let u := (Burn.handleBurnEDinosur s).2 in
  let g := (Burn.handleBurnDinosur s).2 in
  (fst (Burn.userLedger u) + snd (Burn.userLedger u)
     == fst (Burn.userLedger s) + snd (Burn.userLedger s) ∧
   snd (Burn.userLedger s) <= snd (Burn.userLedger u) ∧
   Burn.handleBurnEDinosur u = (NothingToBurn, u)) ∧
  (fst (Burn.globalLedger g) + snd (Burn.globalLedger g)
     == fst (Burn.globalLedger s) + snd (Burn.globalLedger s) ∧
   snd (Burn.globalLedger s) <= snd (Burn.globalLedger g) ∧
   Burn.handleBurnDinosur g = (NothingToBurn, g)).
Proof.
  intros u g. split.
  - destruct (handleBurnEDinosur_cases s) as [(Hpos & Hl & _)|[Hle Hno]].
    + fold u in Hl. rewrite Hl. simpl. split; [ring|]. split.
      * rewrite <- (Qplus_0_r (snd (Burn.userLedger s))) at 1.
        apply Qplus_le_compat; [apply Qle_refl|by apply Qlt_le_weak].
      * destruct (handleBurnEDinosur_cases u) as [(Hpos' & _)|[_ Hno']];
          [|done].
        rewrite Hl in Hpos'. simpl in Hpos'. by apply Qlt_irrefl in Hpos'.
    + unfold u. rewrite Hno. simpl. split; [reflexivity|].
      split; [apply Qle_refl|done].
  - destruct (handleBurnDinosur_cases s) as [(Hpos & Hl & _)|[Hle Hno]].
    + fold g in Hl. rewrite Hl. simpl. split; [ring|]. split.
      * rewrite <- (Qplus_0_r (snd (Burn.globalLedger s))) at 1.
        apply Qplus_le_compat; [apply Qle_refl|by apply Qlt_le_weak].
      * destruct (handleBurnDinosur_cases g) as [(Hpos' & _)|[_ Hno']];
          [|done].
        rewrite Hl in Hpos'. simpl in Hpos'. by apply Qlt_irrefl in Hpos'.
    + unfold g. rewrite Hno. simpl. split; [reflexivity|].
      split; [apply Qle_refl|done].
Qed.

(** X9. Claiming the balance changes only [earned]: neither burn counter,
    nor the assets, nor the global document; it can be done before or
    after a burn with the same result; and a second claim right after it
    finds nothing to claim. *)
Theorem claim_burn_commute (s : Burn.Store) :
  let c := (EDinosur.handleClaimDinosur s).2 in
  (Burn.userLedger c = Burn.userLedger s ∧
   Burn.globalStats c = Burn.globalStats s ∧
   Burn.staking c ≫= Staking.nfts = Burn.staking s ≫= Staking.nfts) ∧
  (Burn.handleBurnEDinosur c).2
    = (EDinosur.handleClaimDinosur (Burn.handleBurnEDinosur s).2).2 ∧
  EDinosur.handleClaimDinosur c = (EDinosur.NothingToClaim, c).
Proof.
  intros c. unfold c, EDinosur.handleClaimDinosur, Burn.handleBurnEDinosur.
  destruct s as [[d|] g]; simpl; [|done].
  destruct (Js.gtb (Js.orZero (Staking.earned d)) 0) eqn:He;
    destruct (Js.gtb (Js.orZero (Staking.readyToBurnEDinosur d)) 0) eqn:Hr;
    simpl; rewrite ?He, ?Hr; simpl; rewrite ?He; done.
Qed.

(** ** Amounts are never negative *)

Section Nonneg.
Import Ledger.

Lemma addSlotCost_pos (n : Z) : 0 < Staking.calculateAddSlotCost n.
Proof.
  unfold Staking.calculateAddSlotCost. destruct (4 <=? n)%Z.
  - apply Qmult_lt_0_compat; [reflexivity|].
    apply Qpower_0_lt. reflexivity.
  - reflexivity.
Qed.

Lemma purchaseSlot_nonneg (C : Q) (doc : option Staking.Doc) :
  0 <= C → nonneg doc → nonneg (Staking.purchaseSlot C doc).2.
Proof.
  intros HC (Hb & Hr & Ht). unfold Staking.purchaseSlot.
  fold (balance doc) (readyToBurn doc).
  destruct (Js.geb (balance doc) C) eqn:Hge; simpl; [|done].
  apply Qle_bool_iff in Hge. unfold nonneg, balance, readyToBurn, totalBurnt.
  simpl. fold (balance doc) (readyToBurn doc) (totalBurnt doc).
  split; [|split; [|done]].
  - unfold Qminus. rewrite <- (Qplus_opp_r C).
    apply Qplus_le_compat; [done|apply Qle_refl].
  - rewrite <- (Qplus_0_l 0). apply Qplus_le_compat; [done|].
    apply Qmult_le_0_compat; [done|by_Qcompare].
Qed.

End Nonneg.

(** X10. On a staking document whose balance, readyToBurn and totalBurnt are
    not negative they stay so under a slot purchase, a ticket purchase
    (for a state whose total cost is the quantity times the ticket
    price), a burn, a claim of the balance and a claim of referral
    earnings. *)
Theorem amounts_stay_nonneg (doc : option Staking.Doc) :
  Ledger.nonneg doc →
  (∀ uid, Ledger.nonneg (Staking.handleAddSlot uid doc).2) ∧
  (∀ uid st, RaffleLog.ticketInv st →
     Ledger.nonneg (Raffle.handleBuyTickets uid doc st).2.1) ∧
  (∀ g, Ledger.nonneg
          (Burn.staking (Burn.handleBurnEDinosur
                           {| Burn.staking := doc;
                              Burn.globalStats := g |}).2)) ∧
  (∀ g, Ledger.nonneg
          (Burn.staking (EDinosur.handleClaimDinosur
                           {| Burn.staking := doc;
                              Burn.globalStats := g |}).2)) ∧
  (∀ st, Ledger.nonneg (Affiliate.handleClaimReferralEarnings doc st).2.1).
Proof.
  intros Hnn. pose proof Hnn as (Hb & Hr & Ht).
  split; [|split; [|split; [|split]]].
  - intros [uid|]; simpl; [|done].
    apply purchaseSlot_nonneg; [|done].
    apply Qlt_le_weak, addSlotCost_pos.
  - intros [uid|] st (Hq & Hcost & _); simpl; [|done].
    fold (Ledger.balance doc) (Ledger.readyToBurn doc).
    destruct (Js.geb (Ledger.balance doc) _) eqn:Hge; simpl; [|done].
    apply Qle_bool_iff in Hge.
    destruct doc as [d|]; simpl; [|done].
    assert (0 <= inject_Z (Raffle.totalCost st)) as Hc.
    { rewrite Hcost. change 0 with (inject_Z 0). rewrite <- Zle_Qle.
      unfold Raffle.EDINOSUR_TICKET_COST. lia. }
    unfold Ledger.nonneg, Ledger.balance, Ledger.readyToBurn,
      Ledger.totalBurnt in *. simpl in *.
    split; [|split; [|done]].
    + unfold Qminus. rewrite <- (Qplus_opp_r (inject_Z (Raffle.totalCost st))).
      apply Qplus_le_compat; [done|apply Qle_refl].
    + rewrite <- (Qplus_0_l 0). apply Qplus_le_compat; [done|].
      apply Qmult_le_0_compat; [done|by_Qcompare].
  - intros g. unfold Burn.handleBurnEDinosur. simpl.
    fold (Ledger.readyToBurn doc) (Ledger.totalBurnt doc).
    destruct (Js.gtb (Ledger.readyToBurn doc) 0); simpl; [|done].
    destruct doc as [d|]; simpl; [|done].
    unfold Ledger.nonneg, Ledger.balance, Ledger.readyToBurn,
      Ledger.totalBurnt in *. simpl in *.
    split; [done|]. split; [apply Qle_refl|].
    rewrite <- (Qplus_0_l 0). by apply Qplus_le_compat.
  - intros g. unfold EDinosur.handleClaimDinosur. simpl.
    destruct (Js.gtb _ 0); simpl; [|done].
    destruct doc as [d|]; simpl; [|done].
    unfold Ledger.nonneg, Ledger.balance, Ledger.readyToBurn,
      Ledger.totalBurnt in *. simpl in *.
    split; [apply Qle_refl|done].
  - intros st. unfold Affiliate.handleClaimReferralEarnings.
    destruct (Js.gtb (Affiliate.referralEarnings st) 0) eqn:Hg; simpl;
      [|done].
    destruct doc as [d|]; simpl; [|done].
    unfold Ledger.nonneg, Ledger.balance, Ledger.readyToBurn,
      Ledger.totalBurnt in *. simpl in *.
    split; [|done].
    rewrite <- (Qplus_0_l 0). apply Qplus_le_compat; [done|].
    unfold Js.gtb in Hg. apply negb_true_iff in Hg.
    destruct (Qlt_le_dec 0 (Affiliate.referralEarnings st)) as [Hp|Hle];
      [by apply Qlt_le_weak|].
    apply Qle_bool_iff in Hle. congruence.
Qed.

(** ** The countdown *)

(** X11. Before the start instant the countdown shows whole days, hours below
    24, minutes and seconds below 60, which add up to the time left
    rounded down to a second; from the start instant's passing on it
    shows zeros. *)
Theorem countdown_decomposition (now : Z) (st : Sale.State) :
  let distance := (Sale.saleStartTime st - now)%Z in
  let t := SaleView.timeLeft now st in
  ((0 <= distance)%Z →
     (SaleView.days t * 86400000 + SaleView.hours t * 3600000
      + SaleView.minutes t * 60000 + SaleView.seconds t * 1000
      = distance - distance mod 1000)%Z ∧
     (0 <= SaleView.days t)%Z ∧
     (0 <= SaleView.hours t < 24)%Z ∧
     (0 <= SaleView.minutes t < 60)%Z ∧
     (0 <= SaleView.seconds t < 60)%Z) ∧
  ((distance < 0)%Z →
     t = {| SaleView.days := 0; SaleView.hours := 0;
            SaleView.minutes := 0; SaleView.seconds := 0 |}).
Proof.
  intros distance t. unfold t, SaleView.timeLeft. fold distance. split.
  - intros Hd. destruct (Z.ltb_spec distance 0) as [|_]; [lia|].
    unfold Js.floorDiv. simpl.
    change (1000 * 60 * 60 * 24)%Z with 86400000%Z.
    change (1000 * 60 * 60)%Z with 3600000%Z.
    change (1000 * 60)%Z with 60000%Z.
    Z.div_mod_to_equations. lia.
  - intros Hd. by destruct (Z.ltb_spec distance 0) as [_|]; [|lia].
Qed.

(** ** The purchase counters of the sale *)

Section SaleCounters.
Import Sale SaleView.

Lemma gtb_false_inv (x y : Q) : Js.gtb x y = false → x <= y.
Proof.
  unfold Js.gtb. intros H. apply negb_false_iff in H.
  by apply Qle_bool_iff.
Qed.

Lemma Qle_bool_false_inv (x y : Q) : Qle_bool x y = false → y < x.
Proof.
  intros H. destruct (Qlt_le_dec y x) as [Hlt|Hle]; [done|].
  apply Qle_bool_iff in Hle. congruence.
Qed.

Lemma price_pos (e : Z) : 0 < price e.
Proof.
  unfold price, Js.pow. apply Qmult_lt_0_compat; [reflexivity|].
  apply Qpower_0_lt. reflexivity.
Qed.

(** A purchase either leaves the state as it is or charges a positive
    cost that fits under both caps. *)
Lemma handleBuy_charge (st : State) :
  (handleBuy st).2 = st ∨
  ∃ amount cost,
    buyAmount st = Some amount ∧ 0 < amount ∧
    cost = amount * currentPrice st ∧
    is_Some (userId st) ∧ saleStarted st = true ∧
    userPurchasedUSD st + cost <= 1000 ∧
    userPurchasedUSDInCurrentEpoch st + cost <= 250 ∧
    (handleBuy st).1
      = Purchased amount (userPurchasedUSD st + cost)
          (userPurchasedUSDInCurrentEpoch st + cost) ∧
    userPurchasedUSD (handleBuy st).2 = userPurchasedUSD st + cost ∧
    userPurchasedUSDInCurrentEpoch (handleBuy st).2
      = userPurchasedUSDInCurrentEpoch st + cost ∧
    lastPurchaseEpoch (handleBuy st).2 = currentEpoch st.
Proof.
  unfold handleBuy.
  destruct (userId st) as [uid|] eqn:Hu; [|by left].
  destruct (saleStarted st) eqn:Hs; simpl; [|by left].
  destruct (buyAmount st) as [a|] eqn:Ha; [|by left].
  destruct (Qle_bool a 0) eqn:Hpos; [by left|].
  destruct (Js.gtb _ 1000) eqn:Hw; [by left|].
  destruct (Js.gtb _ MAX_EPOCH_PURCHASE_USD) eqn:He; [by left|].
  right. exists a, (a * currentPrice st). simpl.
  split; [done|]. split; [by apply Qle_bool_false_inv|].
  split; [done|]. split; [done|]. split; [done|].
  split; [by apply gtb_false_inv|]. split; [by apply gtb_false_inv|].
  done.
Qed.

Lemma capsInv_init uid now : capsInv (init uid now).
Proof. unfold capsInv. simpl. repeat split; by_Qcompare. Qed.

Lemma capsInv_step (st : State) (e : Event) :
  capsInv st →
  capsInv (step st e) ∧
  userPurchasedUSD st <= userPurchasedUSD (step st e).
Proof.
  intros Hinv. pose proof Hinv as (H0 & Hel & Hl & He & Hp).
  destruct e as [now|a|]; simpl.
  - unfold tick. destruct (_ <? 0)%Z; simpl.
    + split; [|apply Qle_refl]. unfold capsInv. simpl.
      destruct (negb _).
      * split; [apply Qle_refl|].
        split; [by apply Qle_trans with (userPurchasedUSDInCurrentEpoch st)|].
        split; [exact Hl|]. split; [by_Qcompare|apply price_pos].
      * split; [exact H0|]. split; [exact Hel|]. split; [exact Hl|].
        split; [exact He|apply price_pos].
    + split; [exact Hinv|apply Qle_refl].
  - split; [exact Hinv|apply Qle_refl].
  - destruct (handleBuy_charge st)
      as [->|(a & c & _ & Ha & Hc & _ & _ & Hw & Hep & _ & Hl' & He' & _)].
    + split; [exact Hinv|apply Qle_refl].
    + assert (0 < c) as Hcpos
        by (rewrite Hc; by apply Qmult_lt_0_compat).
      assert (currentPrice (handleBuy st).2 = currentPrice st) as Hp'
        by apply handleBuy_view.
      unfold capsInv. rewrite Hl', He', Hp'.
      split.
      * split; [rewrite <- (Qplus_0_l 0); apply Qplus_le_compat;
                [exact H0|by apply Qlt_le_weak]|].
        split; [apply Qplus_le_compat; [exact Hel|apply Qle_refl]|].
        split; [exact Hw|]. split; [exact Hep|exact Hp].
      * rewrite <- (Qplus_0_r (userPurchasedUSD st)) at 1.
        apply Qplus_le_compat; [apply Qle_refl|by apply Qlt_le_weak].
Qed.

Lemma capsInv_run (es : list Event) (st : State) :
  capsInv st →
  capsInv (run es st) ∧ userPurchasedUSD st <= userPurchasedUSD (run es st).
Proof.
  unfold run. revert st. induction es as [|e es IH]; intros st Hinv.
  - split; [done|apply Qle_refl].
  - simpl. destruct (capsInv_step st e Hinv) as [Hinv' Hle].
    destruct (IH _ Hinv') as [Hinv'' Hle'].
    split; [done|]. by apply Qle_trans with (userPurchasedUSD (step st e)).
Qed.

End SaleCounters.

(** X12. From the mounted component's first state on, whatever the clock, the
    inputs and the purchases: the spending of the epoch is between 0 and
    250 and no more than the lifetime spending, which is at most 1000 and
    never goes down; and the price on display is positive. *)
Theorem sale_caps_invariant (st : Sale.State) (es : list Sale.Event) :
  SaleView.capsInv st →
  SaleView.capsInv (Sale.run es st) ∧
  Sale.userPurchasedUSD st <= Sale.userPurchasedUSD (Sale.run es st) ∧
  (∀ uid now, SaleView.capsInv (Sale.run es (Sale.init uid now))).
Proof.
  intros Hinv. destruct (capsInv_run es st Hinv) as [H1 H2].
  split; [done|]. split; [done|].
  intros uid now. apply capsInv_run, capsInv_init.
Qed.


(** ** The sale over a clock that never runs backwards *)

Section SaleOrder.
Import Sale SaleView.

Lemma lastTime_ge (es : list Event) (t : Z) :
  monotoneFrom t es = true → (t <= lastTime t es)%Z.
Proof.
  unfold lastTime. revert t.
  induction es as [|e es IH]; intros t Hm; [simpl; lia|].
  destruct e as [now|a|]; simpl in *.
  - apply andb_prop in Hm as [Hle Hm]. apply Z.leb_le in Hle.
    specialize (IH now Hm). lia.
  - by apply IH.
  - by apply IH.
Qed.

Lemma startedInv_init uid now :
  startedInv (saleStartTime (init uid now)) now (init uid now).
Proof. split; [done|]. simpl. split; [discriminate|lia]. Qed.

Lemma startedInv_step (T0 t : Z) (st : State) (e : Event) :
  startedInv T0 t st →
  startedInv T0 (lastTime t [e]) (step st e).
Proof.
  intros [HT Hs]. destruct e as [now|a|]; simpl.
  - split; [by rewrite tick_saleStartTime|]. unfold lastTime. simpl.
    destruct (Z.lt_ge_cases T0 now) as [Hlt|Hge].
    + destruct (tick_live now st) as (-> & _); [lia|]. done.
    + destruct (tick_pending now st) as (-> & _); [lia|].
      split; [discriminate|lia].
  - done.
  - destruct (handleBuy_view st) as (_ & HT' & Hs' & _).
    split; [by rewrite HT'|by rewrite Hs'].
Qed.

Lemma startedInv_run (T0 : Z) (es : list Event) (t : Z) (st : State) :
  startedInv T0 t st → startedInv T0 (lastTime t es) (run es st).
Proof.
  unfold run, lastTime. revert t st.
  induction es as [|e es IH]; intros t st Hinv; [done|].
  simpl. apply IH. by apply (startedInv_step T0 t st e).
Qed.

Lemma epochIndex_nonneg (T0 t : Z) : (T0 <= t)%Z → (0 <= epochIndex T0 t)%Z.
Proof.
  intros Hle. unfold epochIndex, Js.floorDiv.
  apply Z.div_pos; [lia|by rewrite epochMs_val].
Qed.

End SaleOrder.

(** X14. From the mounted component's first state on, along events whose
    clock never runs backwards: once the sale is shown as started it
    stays started, and the epoch and the price on display never go
    down. *)
Theorem sale_never_goes_back (uid : option string) (t0 : Z)
    (es1 es2 : list Sale.Event) :
  Sale.monotoneFrom t0 (es1 ++ es2) = true →
  let s1 := Sale.run es1 (Sale.init uid t0) in
  let s2 := Sale.run (es1 ++ es2) (Sale.init uid t0) in
  (Sale.saleStarted s1 = true → Sale.saleStarted s2 = true) ∧
  (0 <= Sale.currentEpoch s1 <= Sale.currentEpoch s2)%Z ∧
  Sale.currentPrice s1 <= Sale.currentPrice s2.
Proof.
  intros Hm s1 s2.
  set (T0 := Sale.saleStartTime (Sale.init uid t0)).
  rewrite monotoneFrom_app in Hm. apply andb_prop in Hm as [Hm1 Hm2].
  set (t1 := Sale.lastTime t0 es1) in *.
  set (t2 := Sale.lastTime t0 (es1 ++ es2)).
  assert (t0 <= t1)%Z as H01 by (by apply lastTime_ge).
  assert (t1 <= t2)%Z as H12.
  { unfold t2, Sale.lastTime. rewrite fold_left_app.
    by apply lastTime_ge. }
  destruct (startedInv_run T0 es1 t0 _ (startedInv_init uid t0))
    as [_ Hs1].
  destruct (startedInv_run T0 (es1 ++ es2) t0 _ (startedInv_init uid t0))
    as [_ Hs2].
  destruct (epochInv_run T0 es1 t0 _ (epochInv_init uid t0) Hm1)
    as [_ He1].
  destruct (epochInv_run T0 (es1 ++ es2) t0 _ (epochInv_init uid t0))
    as [_ He2]; [by rewrite monotoneFrom_app, Hm1|].
  fold s1 t1 in Hs1, He1. fold s2 t2 in Hs2, He2.
  assert (0 <= Sale.currentEpoch s1 <= Sale.currentEpoch s2)%Z as Hep.
  { rewrite He1, He2.
    destruct (Z.leb_spec t1 T0), (Z.leb_spec t2 T0); try lia.
    - split; [lia|]. apply epochIndex_nonneg. lia.
    - split; [apply epochIndex_nonneg; lia|by apply epochIndex_mono]. }
  split; [|split; [exact Hep|]].
  - intros Hst. apply Hs2. apply Hs1 in Hst. lia.
  - pose proof (priceInv_run es1 _ (priceInv_init uid t0)) as Hp1.
    pose proof (priceInv_run (es1 ++ es2) _ (priceInv_init uid t0)) as Hp2.
    unfold Sale.priceInv in Hp1, Hp2. fold s1 in Hp1. fold s2 in Hp2.
    rewrite Hp1, Hp2. apply price_mono. lia.
Qed.

Section SaleIdle.
Import Sale SaleView.

Lemma handleBuy_idle (st : State) :
  userId st = None ∨ saleStarted st = false → (handleBuy st).2 = st.
Proof.
  intros [Hu|Hs]; unfold handleBuy.
  - by rewrite Hu.
  - destruct (userId st); [|done]. by rewrite Hs.
Qed.

Lemma run_disconnected (es : list Event) (st : State) :
  userId st = None →
  userId (run es st) = None ∧
  userPurchasedUSD (run es st) = userPurchasedUSD st.
Proof.
  unfold run. revert st. induction es as [|e es IH]; intros st Hu; [done|].
  simpl.
  assert (userId (step st e) = None ∧
          userPurchasedUSD (step st e) = userPurchasedUSD st) as [Hu' Hl].
  { destruct e as [now|a|]; simpl.
    - rewrite tick_userId. split; [done|].
      unfold tick. by destruct (_ <? 0)%Z.
    - done.
    - rewrite handleBuy_idle by (by left). done. }
  destruct (IH _ Hu') as [Hu'' Hl']. split; [done|]. by rewrite Hl', Hl.
Qed.

Lemma run_pending (es : list Event) (st : State) :
  saleStarted st = false → allPending (saleStartTime st) es →
  saleStarted (run es st) = false ∧
  userPurchasedUSD (run es st) = userPurchasedUSD st ∧
  userPurchasedUSDInCurrentEpoch (run es st)
    = userPurchasedUSDInCurrentEpoch st ∧
  lastPurchaseEpoch (run es st) = lastPurchaseEpoch st.
Proof.
  unfold run, allPending. revert st.
  induction es as [|e es IH]; intros st Hs Hall; [done|].
  apply Forall_cons in Hall as [He Hall]. simpl.
  assert (saleStarted (step st e) = false ∧
          saleStartTime (step st e) = saleStartTime st ∧
          userPurchasedUSD (step st e) = userPurchasedUSD st ∧
          userPurchasedUSDInCurrentEpoch (step st e)
            = userPurchasedUSDInCurrentEpoch st ∧
          lastPurchaseEpoch (step st e) = lastPurchaseEpoch st)
    as (Hs' & HT & Hl & Hc & Hr).
  { destruct e as [now|a|]; simpl.
    - destruct (tick_pending now st He) as (-> & _ & _ & -> & ->).
      rewrite tick_saleStartTime. split; [done|]. split; [done|].
      split; [|done]. unfold tick. by destruct (_ <? 0)%Z.
    - done.
    - rewrite handleBuy_idle by (by right). done. }
  destruct (IH (step st e) Hs') as (H1 & H2 & H3 & H4);
    [by rewrite HT|].
  by rewrite H2, H3, H4, Hl, Hc, Hr.
Qed.

End SaleIdle.

(** X15. Nothing is bought without a connected wallet: the lifetime spending
    stays as it is whatever happens.  And nothing is bought before the
    sale starts: while every tick is at a clock no later than the start
    instant, all three purchase fields stay as they are; in particular
    for the 45 days that follow the mounting of the component. *)
Theorem no_purchase_when_idle (st : Sale.State) (es : list Sale.Event) :
  (Sale.userId st = None →
     Sale.userPurchasedUSD (Sale.run es st) = Sale.userPurchasedUSD st) ∧
  (Sale.saleStarted st = false →
   SaleView.allPending (Sale.saleStartTime st) es →
     Sale.userPurchasedUSD (Sale.run es st) = Sale.userPurchasedUSD st ∧
     Sale.userPurchasedUSDInCurrentEpoch (Sale.run es st)
       = Sale.userPurchasedUSDInCurrentEpoch st ∧
     Sale.lastPurchaseEpoch (Sale.run es st) = Sale.lastPurchaseEpoch st) ∧
  (∀ uid t0,
     SaleView.allPending (t0 + 45 * 24 * 60 * 60 * 1000) es →
     Sale.userPurchasedUSD (Sale.run es (Sale.init uid t0)) = 0).
Proof.
  split; [|split].
  - intros Hu. by apply run_disconnected.
  - intros Hs Hall. by apply run_pending.
  - intros uid t0 Hall.
    by destruct (run_pending es (Sale.init uid t0) eq_refl Hall)
      as (_ & -> & _).
Qed.

(** ** The activity log *)

Section ActivityLog.
Import RaffleLog.

Lemma take_app_take {A} (n : nat) (l k : list A) :
  take n (l ++ take n k) = take n (l ++ k).
Proof.
  rewrite !take_app, take_take. do 2 f_equal. lia.
Qed.

Lemma pushAll_spec (ms prev : list string) :
  ms ≠ [] → pushAll ms prev = take 5 (reverse ms ++ prev).
Proof.
  unfold pushAll. revert prev.
  induction ms as [|m ms IH]; intros prev Hne; [done|].
  simpl. destruct ms as [|m' ms'].
  - done.
  - rewrite IH by done. unfold pushActivity.
    rewrite take_app_take. rewrite (reverse_cons (m' :: ms') m).
    by rewrite <- app_assoc.
Qed.

End ActivityLog.

(** X16. The activity log never holds more than five messages once one has
    arrived, and it holds the most recent ones, newest first: after the
    messages [ms] it is the first five of [ms] reversed followed by the
    earlier log. *)
Theorem activity_log_keeps_five (ms prev : list string) :
  ms ≠ [] →
  RaffleLog.pushAll ms prev = take 5 (reverse ms ++ prev) ∧
  (length (RaffleLog.pushAll ms prev) <= 5)%nat ∧
  head (RaffleLog.pushAll ms prev) = last ms.
Proof.
  intros Hne. rewrite (pushAll_spec ms prev Hne).
  split; [done|]. split; [rewrite length_take; lia|].
  destruct (reverse ms) as [|x r] eqn:Hr.
  - apply (f_equal reverse) in Hr. rewrite reverse_involutive in Hr.
    by destruct Hne.
  - simpl. apply (f_equal reverse) in Hr. rewrite reverse_involutive in Hr.
    rewrite Hr, reverse_cons. by rewrite last_snoc.
Qed.

(** ** The ticket counter *)

Section Tickets.
Import Raffle RaffleLog.

Lemma ticketInv_init : ticketInv init.
Proof. unfold ticketInv. simpl. split; [done|]. split; [done|]. done. Qed.

Lemma changeQuantity_any (parsed : option Z) (st : State) :
  (1 <= ticketQuantity (changeQuantity parsed st))%Z ∧
  totalCost (changeQuantity parsed st)
    = (ticketQuantity (changeQuantity parsed st) * EDINOSUR_TICKET_COST)%Z ∧
  ((∀ v, parsed = Some v → (v < 1)%Z) →
     ticketQuantity (changeQuantity parsed st) = 1%Z).
Proof.
  unfold changeQuantity. simpl. split; [lia|]. split; [done|].
  intros Hlow. destruct parsed as [v|]; [|done].
  specialize (Hlow v eq_refl). destruct (v =? 0)%Z; lia.
Qed.

Lemma handleBuyTickets_view (uid : option string)
    (doc : option Staking.Doc) (st : State) :
  let st' := (handleBuyTickets uid doc st).2.2 in
  ticketQuantity st' = ticketQuantity st ∧ totalCost st' = totalCost st ∧
  isSpinning st' = isSpinning st ∧ intervalId st' = intervalId st ∧
  (ticketCount st' = ticketCount st ∨
   ticketCount st' = (ticketCount st + ticketQuantity st)%Z).
Proof.
  unfold handleBuyTickets. destruct uid; [|by repeat split; try left].
  destruct (Js.geb _ _); [|by repeat split; try left].
  destruct doc; simpl; by repeat split; try right.
Qed.

Lemma ticketInv_step (st : State) (e : Event) :
  ticketInv st → ticketInv (step st e).
Proof.
  intros Hinv. pose proof Hinv as (Hq & Hc & Hn & Hcap).
  destruct e as [|random|parsed|uid doc]; simpl.
  - unfold handleSpin. destruct (isSpinning st); [exact Hinv|].
    destruct (Z.ltb_spec 0 (ticketCount st)); simpl; [|exact Hinv].
    split; [exact Hq|]. split; [exact Hc|]. split; [exact Hn|].
    simpl. intros sp [= <-]. simpl. lia.
  - unfold spinTick. destruct (intervalId st) as [sp|] eqn:Hid;
      [|exact Hinv].
    specialize (Hcap sp eq_refl).
    destruct (spinDuration <=? _)%Z; simpl.
    + split; [exact Hq|]. split; [exact Hc|]. split; [simpl; lia|].
      simpl. discriminate.
    + split; [exact Hq|]. split; [exact Hc|]. split; [exact Hn|].
      simpl. intros sp' [= <-]. done.
  - destruct (changeQuantity_any parsed st) as (Hq' & Hc' & _).
    split; [exact Hq'|]. split; [exact Hc'|]. split; [exact Hn|exact Hcap].
  - destruct (handleBuyTickets_view uid doc st)
      as (Hq' & Hc' & _ & Hid' & Hcnt).
    unfold ticketInv. rewrite Hq', Hc', Hid'.
    split; [exact Hq|]. split; [exact Hc|]. split; [|exact Hcap].
    destruct Hcnt as [-> | ->]; lia.
Qed.

Lemma ticketInv_run (es : list Event) (st : State) :
  ticketInv st → ticketInv (run es st).
Proof.
  unfold run. revert st. induction es as [|e es IH]; intros st Hinv; [done|].
  simpl. apply IH. by apply ticketInv_step.
Qed.

End Tickets.

(** X17. In every state the raffle component reaches, whatever is typed into
    the quantity field (nothing, zero, a negative number), the quantity is
    at least 1, the total cost is the quantity times 50000, and the
    ticket count is not negative. *)
Theorem raffle_counters_invariant (es : list Raffle.Event) :
  let st := Raffle.run es Raffle.init in
  (1 <= Raffle.ticketQuantity st)%Z ∧
  Raffle.totalCost st = (Raffle.ticketQuantity st * 50000)%Z ∧
  (0 <= Raffle.ticketCount st)%Z ∧
  (∀ parsed,
     (∀ v, parsed = Some v → (v < 1)%Z) →
     Raffle.ticketQuantity (Raffle.changeQuantity parsed st) = 1%Z ∧
     Raffle.totalCost (Raffle.changeQuantity parsed st) = 50000%Z).
Proof.
  intros st.
  destruct (ticketInv_run es Raffle.init ticketInv_init) as (Hq & Hc & Hn & _).
  fold st in Hq, Hc, Hn. split; [done|]. split; [done|]. split; [done|].
  intros parsed Hlow.
  destruct (changeQuantity_any parsed st) as (_ & Hc' & Hone).
  rewrite Hc', (Hone Hlow). done.
Qed.

(** ** Events during a spin *)

Section SpinInterleaved.
Import Raffle RaffleLog.

Lemma timerRuns_timer (random : nat → Q) (es : list Event) :
  timerRuns (TimerRun random :: es) = S (timerRuns es).
Proof. unfold timerRuns. by rewrite filter_cons_True. Qed.

Lemma timerRuns_other (e : Event) (es : list Event) :
  isTimerRun e = false → timerRuns (e :: es) = timerRuns es.
Proof.
  intros He. unfold timerRuns. rewrite filter_cons_False; [done|].
  by rewrite He.
Qed.

(** Until its timer has run 20 times a spin holds on to the count it
    captured, whatever else is pressed. *)
Lemma spin_in_flight (es : list Event) (st : State) (c t : Z) :
  intervalId st = Some {| capturedTicketCount := c; spinTimer := t |} →
  isSpinning st = true →
  (t + 100 * Z.of_nat (timerRuns es) < 2000)%Z →
  intervalId (run es st)
    = Some {| capturedTicketCount := c;
              spinTimer := t + 100 * Z.of_nat (timerRuns es) |} ∧
  isSpinning (run es st) = true.
Proof.
  unfold run. revert st t.
  induction es as [|e es IH]; intros st t Hid Hsp Hlt.
  - simpl. rewrite Z.add_0_r. done.
  - simpl fold_left.
    destruct e as [|random|parsed|uid doc]; simpl step.
    + rewrite timerRuns_other in * by done.
      rewrite (handleSpin_busy st Hsp). simpl. by apply IH.
    + rewrite timerRuns_timer in *.
      destruct (spinTick_moving random st c t Hid) as (_ & Hid' & Hsp' & _);
        [lia|].
      destruct (IH _ (t + 100)%Z Hid') as [Hid'' Hsp'']; [congruence|lia|].
      rewrite Hid'', Hsp''. split; [|done]. do 2 f_equal. lia.
    + rewrite timerRuns_other in * by done. by apply IH.
    + rewrite timerRuns_other in * by done.
      destruct (handleBuyTickets_view uid doc st)
        as (_ & _ & Hsp' & Hid' & _).
      apply IH; [congruence|congruence|done].
Qed.

End SpinInterleaved.

(** X18. The count a spin writes when it ends is the count at the moment Spin
    was pressed, less one, whatever happened while the reels were
    spinning: tickets bought in between are not in it. *)
Theorem spin_end_overwrites_count (st : Raffle.State)
    (es : list Raffle.Event) (random : nat → Q) :
  Raffle.isSpinning st = false → (0 < Raffle.ticketCount st)%Z →
  RaffleLog.timerRuns es = 19%nat →
  let st1 := (Raffle.handleSpin st).2 in
  let final := Raffle.run (es ++ [Raffle.TimerRun random]) st1 in
  Raffle.isSpinning (Raffle.run es st1) = true ∧
  Raffle.ticketCount final = (Raffle.ticketCount st - 1)%Z ∧
  Raffle.isSpinning final = false.
Proof.
  intros Hsp Hpos Hruns st1 final.
  destruct (handleSpin_start st Hsp Hpos) as (st1' & Hstart & Hid & Hs1 & _).
  assert (st1 = st1') as -> by (unfold st1; by rewrite Hstart).
  destruct (spin_in_flight es st1' _ 0 Hid Hs1) as [Hid19 Hs19];
    [rewrite Hruns; lia|].
  split; [exact Hs19|].
  unfold final, Raffle.run. rewrite fold_left_app. simpl.
  destruct (spinTick_final random _ _ _ Hid19) as (_ & Hc & Hdone & _);
    [rewrite Hruns; lia|].
  done.
Qed.

(** ** Referral earnings *)



(** * The further properties at concrete inputs *)

(** Asset 2 of a new holder, staked at clock 1000 and unstaked again. *)
Lemma stake_unstake_roundtrip_witness :
  (∀ nft, nft ∈ StakingSection.stakedNFTs freshStaking →
          Staking.id nft = 2%Z →
          Staking.staked nft = false ∧ Staking.lastStakedTime nft = 0%Z) ∧
  (StakingSection.handleUnstakeNFT 2
     (StakingSection.handleStakeNFT 2 1000 freshStaking).1.2).1.2
    = freshStaking.
Proof.
  assert (∀ nft, nft ∈ StakingSection.stakedNFTs freshStaking →
                 Staking.id nft = 2%Z →
                 Staking.staked nft = false
                 ∧ Staking.lastStakedTime nft = 0%Z) as H.
  { intros nft Hin Hid. simpl in Hin.
    repeat (apply elem_of_cons in Hin as [->|Hin]; [done|]).
    by apply elem_of_nil in Hin. }
  split; [exact H|].
  exact (proj1 (stake_unstake_roundtrip 2 1000 freshStaking H)).
Defined.

(** Two slot purchases around a stake keep four, then five distinct ids. *)
Lemma asset_ids_stay_distinct_witness :
  NoDup (Staking.id <$> seedNFTs) ∧
  NoDup (Staking.id
           <$> fold_left StakingSection.listStep
                 [StakingSection.AddSlotEv; StakingSection.StakeEv 4 10;
                  StakingSection.AddSlotEv] seedNFTs).
Proof.
  assert (NoDup (Staking.id <$> seedNFTs)) as H by by_compute.
  split; [exact H|].
  exact (proj1 (asset_ids_stay_distinct seedNFTs H) _).
Defined.

(** The slot price at 3 and at 5 slots. *)
Lemma slot_cost_growth_witness :
  (3 <= 5)%Z ∧
  Staking.calculateAddSlotCost 3 <= Staking.calculateAddSlotCost 5.
Proof.
  assert (3 <= 5)%Z as H by lia.
  split; [exact H|].
  exact (proj1 (proj2 (slot_cost_growth 3 5 H))).
Defined.

(** Staking asset 3 of a holder with assets 1 and 2 staked. *)
Lemma earning_rate_order_witness :
  Forall (λ nft, 0 <= Staking.earning nft)
    (StakingSection.stakedNFTs earningStaking) ∧
  StakingSection.perSecond seedNFTs
    <= StakingSection.perSecond (StakingSection.stakeOne 3 1000 <$> seedNFTs).
Proof.
  assert (Forall (λ nft, 0 <= Staking.earning nft)
            (StakingSection.stakedNFTs earningStaking)) as H
    by (repeat constructor; by_Qcompare).
  split; [exact H|].
  exact (proj1 (proj2 (proj2 (earning_rate_order 3 1000 earningStaking H)))).
Defined.

(** A claim of a balance of 10 by a connected wallet. *)
Lemma claim_reward_once_witness :
  let r := StakingSection.handleClaimReward (Some "holder") earningStaking in
  0 < StakingSection.totalEarned earningStaking ∧
  r.1.1 = StakingSection.UpdateFailed ∧
  StakingSection.totalEarned r.1.2 = 0.
Proof.
  intros r.
  assert (0 < StakingSection.totalEarned earningStaking) as H
    by by_Qcompare.
  split; [exact H|].
  exact (proj1 (proj2 (proj2 (proj2
           (claim_reward_once (Some "holder") earningStaking)))) H).
Defined.

(** A slot purchase on a funded document. *)
Lemma amounts_stay_nonneg_witness :
  Ledger.nonneg (fundedDoc 250000) ∧
  Ledger.nonneg
    (Staking.handleAddSlot (Some "holder") (fundedDoc 250000)).2.
Proof.
  assert (Ledger.nonneg (fundedDoc 250000)) as H
    by (repeat split; by_Qcompare).
  split; [exact H|].
  exact (proj1 (amounts_stay_nonneg (fundedDoc 250000) H) (Some "holder")).
Defined.

(** One second after mounting, 44 days 23:59:59 are left. *)
Lemma countdown_decomposition_witness :
  let st := Sale.init None 0 in
  let t := SaleView.timeLeft 1000 st in
  (0 <= Sale.saleStartTime st - 1000)%Z ∧
  (SaleView.days t * 86400000 + SaleView.hours t * 3600000
   + SaleView.minutes t * 60000 + SaleView.seconds t * 1000
   = (Sale.saleStartTime st - 1000)
     - (Sale.saleStartTime st - 1000) mod 1000)%Z.
Proof.
  intros st t.
  assert (0 <= Sale.saleStartTime st - 1000)%Z as H
    by (vm_compute; discriminate).
  split; [exact H|].
  exact (proj1 (proj1 (countdown_decomposition 1000 st) H)).
Defined.

(** A purchase in epoch 0 of a live sale. *)
Lemma sale_caps_invariant_witness :
  let st := liveSale 100 100 (Some 1000000) in
  SaleView.capsInv st ∧ SaleView.capsInv (Sale.run [Sale.Buy] st).
Proof.
  intros st.
  assert (SaleView.capsInv st) as H by (repeat split; by_Qcompare).
  split; [exact H|].
  exact (proj1 (sale_caps_invariant st [Sale.Buy] H)).
Defined.


(** A tick just after the start, then one two epochs later. *)
Lemma sale_never_goes_back_witness :
  let es1 := [Sale.Tick 3888000001] in
  let es2 := [Sale.Tick 5097600001] in
  Sale.monotoneFrom 0 (es1 ++ es2) = true ∧
  (Sale.currentEpoch (Sale.run es1 (Sale.init None 0))
   <= Sale.currentEpoch (Sale.run (es1 ++ es2) (Sale.init None 0)))%Z.
Proof.
  intros es1 es2.
  assert (Sale.monotoneFrom 0 (es1 ++ es2) = true) as H by reflexivity.
  split; [exact H|].
  exact (proj2 (proj1 (proj2 (sale_never_goes_back None 0 es1 es2 H)))).
Defined.

(** Pressing Buy without a wallet. *)
Lemma no_purchase_when_idle_witness :
  let st0 := Sale.init None 0 in
  let es := [Sale.Input (Some 5); Sale.Buy] in
  Sale.userId st0 = None ∧
  Sale.userPurchasedUSD (Sale.run es st0) = Sale.userPurchasedUSD st0.
Proof.
  intros st0 es.
  assert (Sale.userId st0 = None) as H by reflexivity.
  split; [exact H|].
  exact (proj1 (no_purchase_when_idle st0 es) H).
Defined.

(** Seven messages arriving on an empty log. *)
Lemma activity_log_keeps_five_witness :
  let ms := ["a"; "b"; "c"; "d"; "e"; "f"; "g"] in
  ms ≠ [] ∧
  RaffleLog.pushAll ms [] = take 5 (reverse ms ++ []).
Proof.
  intros ms.
  assert (ms ≠ []) as H by discriminate.
  split; [exact H|].
  exact (proj1 (activity_log_keeps_five ms [] H)).
Defined.

(** A quantity of -3 typed in, then the field emptied. *)
Lemma raffle_counters_invariant_witness :
  let st := Raffle.run [Raffle.Quantity (Some (-3)%Z)] Raffle.init in
  (∀ v : Z, @None Z = Some v → (v < 1)%Z) ∧
  Raffle.ticketQuantity (Raffle.changeQuantity None st) = 1%Z.
Proof.
  intros st.
  assert (∀ v : Z, @None Z = Some v → (v < 1)%Z) as H by discriminate.
  split; [exact H|].
  exact (proj1 (proj2 (proj2 (proj2
           (raffle_counters_invariant [Raffle.Quantity (Some (-3)%Z)])))
           None H)).
Defined.

(** One ticket, a spin, and a ticket bought while the reels spin: two
    tickets before the last run of the timer, none after it. *)
Lemma spin_end_overwrites_count_witness :
  let st := Raffle.setTicketCount 1 Raffle.init in
  let st1 := (Raffle.handleSpin st).2 in
  (Raffle.isSpinning st = false ∧ (0 < Raffle.ticketCount st)%Z ∧
   RaffleLog.timerRuns busySpin = 19%nat) ∧
  Raffle.ticketCount (Raffle.run busySpin st1) = 2%Z ∧
  Raffle.ticketCount
    (Raffle.run (busySpin ++ [Raffle.TimerRun half]) st1) = (1 - 1)%Z.
Proof.
  intros st st1.
  assert (Raffle.isSpinning st = false) as Hs by reflexivity.
  assert (0 < Raffle.ticketCount st)%Z as Hc by reflexivity.
  assert (RaffleLog.timerRuns busySpin = 19%nat) as Hr
    by (vm_compute; reflexivity).
  split; [done|]. split; [vm_compute; reflexivity|].
  exact (proj1 (proj2 (spin_end_overwrites_count st busySpin half Hs Hc Hr))).
Defined.

